(** * path_fan_speed.py: the fan-speed line rewriter

    A shallow embedding of [process_lines] from [src/path_fan_speed.py] and
    the properties of it that the specification states.  [main], which
    reads the file, splits it into lines and writes the result, is not
    modelled: [process_lines] is a function from a list of lines to a list
    of lines.

    Python strings are modelled as lists of 8-bit characters, read as the
    code points 0..255; the character classes below are those of Python's
    [re] module and of [str.lstrip]/[str.rstrip] on that range.  The loop
    of [process_lines] is modelled by [process_line], which returns the two
    variables the loop carries ([current_tool], [last_fan_speed]) and the
    lines it appends to [out].  No operation of the loop can raise on a list
    of strings, so the functions below need no error result. *)

From Stdlib Require Import String Ascii List Bool NArith Arith Lia.
Import ListNotations.

(** ** Text and character classes *)

Definition text := list ascii.

(** A string literal as a text. *)
Definition txt (s : string) : text := list_ascii_of_string s.

Arguments txt : simpl never.

Definition ord (c : ascii) : N := N_of_ascii c.

Definition in_range (lo hi : N) (c : ascii) : bool :=
  ((lo <=? ord c) && (ord c <=? hi))%N.

Definition is_code (n : N) (c : ascii) : bool := (ord c =? n)%N.

(** [\s] of a str pattern, which is also what [lstrip()] and [rstrip()]
    remove: TAB LF VT FF CR, FS GS RS US, SPACE, NEL and NBSP. *)
Definition isspace (c : ascii) : bool :=
  in_range 9 13 c || in_range 28 32 c || is_code 133 c || is_code 160 c.

(** [\d]: the decimal digits; below 256 these are 0-9 only. *)
Definition isdigit (c : ascii) : bool := in_range 48 57 c.

(** [\w]: alphanumeric characters and the underscore. *)
Definition isword (c : ascii) : bool :=
  isdigit c || in_range 65 90 c || in_range 97 122 c || is_code 95 c
  || is_code 170 c || in_range 178 179 c || is_code 181 c
  || in_range 185 186 c || in_range 188 190 c
  || in_range 192 214 c || in_range 216 246 c || in_range 248 255 c.

(** A literal letter of a pattern compiled with IGNORECASE. *)
Definition is_M (c : ascii) : bool := is_code 77 c || is_code 109 c.
Definition is_T (c : ascii) : bool := is_code 84 c || is_code 116 c.
Definition is_S (c : ascii) : bool := is_code 83 c || is_code 115 c.

Definition LF : ascii := ascii_of_N 10.
Definition CR : ascii := ascii_of_N 13.

(** ** String operations *)

Fixpoint text_eqb (a b : text) : bool :=
  match a, b with
  | [], [] => true
  | x :: a', y :: b' => Ascii.eqb x y && text_eqb a' b'
  | _, _ => false
  end.

Fixpoint startswith (s prefix : text) {struct prefix} : bool :=
  match prefix, s with
  | [], _ => true
  | p :: prefix', c :: s' => Ascii.eqb c p && startswith s' prefix'
  | _ :: _, [] => false
  end.

Definition endswith (s suffix : text) : bool :=
  startswith (rev s) (rev suffix).

(** [s[:-n]] *)
Definition drop_last (n : nat) (s : text) : text :=
  firstn (length s - n) s.

Fixpoint dropwhile (p : ascii -> bool) (s : text) : text :=
  match s with
  | [] => []
  | c :: s' => if p c then dropwhile p s' else s
  end.

Fixpoint takewhile (p : ascii -> bool) (s : text) : text :=
  match s with
  | [] => []
  | c :: s' => if p c then c :: takewhile p s' else []
  end.

Definition lstrip (s : text) : text := dropwhile isspace s.

Definition rstrip (s : text) : text := rev (dropwhile isspace (rev s)).

(** [str.upper()] on one character.  The three characters below 256 whose
    upper-case form is not a single character below 256 (181, 223, 255) are
    left as they are; none of them upper-cases to a character of "M106",
    the only text [upper()] is compared with. *)
Definition upper_char (c : ascii) : ascii :=
  if in_range 97 122 c || in_range 224 246 c || in_range 248 254 c
  then ascii_of_N (ord c - 32) else c.

Definition upper (s : text) : text := map upper_char s.

(** [s.split(";", 1)]: the text before the first semicolon and, when there
    is one, the text after it. *)
Fixpoint split_semicolon (s : text) : text * option text :=
  match s with
  | [] => ([], None)
  | c :: s' =>
      if is_code 59 c then ([], Some s')
      else let (a, b) := split_semicolon s' in (c :: a, b)
  end.

(** ** Regular expressions

    The constructs the three patterns of the source use, with the
    backtracking semantics of Python's [re]: greedy quantifiers that give
    characters back when what follows fails.  A match is tried at a position
    of the subject; [prev] is the character before that position, [None] at
    the start of the subject. *)

Inductive regex :=
| Chr (p : ascii -> bool)     (* one character of a class *)
| Bol                         (* [^] *)
| Wordb                       (* [\b] *)
| Seq (a b : regex)
| Opt (a : regex)             (* [a?], greedy *)
| Star (p : ascii -> bool)    (* [p*] for a class [p], greedy *)
| Group (a : regex).          (* the capturing group 1 *)

Definition Plus (p : ascii -> bool) : regex := Seq (Chr p) (Star p).

Declare Scope regex_scope.
Delimit Scope regex_scope with regex.
Infix ";;" := Seq (at level 61, right associativity) : regex_scope.

Definition opt_word (c : option ascii) : bool :=
  match c with Some c => isword c | None => false end.

(** [\b] between the character [prev] (if any) and the head of [next]. *)
Definition at_boundary (prev : option ascii) (next : text) : bool :=
  xorb (opt_word prev) (opt_word (hd_error next)).

Definition last_char (s : text) : option ascii := hd_error (rev s).

(** The character before the position reached once [consumed] has been
    read from a position whose previous character is [prev]. *)
Definition prev_after (prev : option ascii) (consumed : text) : option ascii :=
  match last_char consumed with Some c => Some c | None => prev end.

(** A match: the text after it and what group 1 captured. *)
Definition re_result : Type := text * option text.

(** [p*] followed by [k]: one more character first, then one fewer. *)
Fixpoint star (p : ascii -> bool) (k : option ascii -> text -> option re_result)
    (prev : option ascii) (s : text) : option re_result :=
  match s with
  | c :: r =>
      if p c then
        match star p k (Some c) r with
        | Some m => Some m
        | None => k prev s
        end
      else k prev s
  | [] => k prev s
  end.

(** [run r prev s g k]: match [r] at the head of [s] and then [k] on what
    follows, trying the alternatives of [r] in priority order until [k]
    succeeds. *)
Fixpoint run (r : regex) (prev : option ascii) (s : text) (g : option text)
    (k : option ascii -> text -> option text -> option re_result)
    : option re_result :=
  match r with
  | Chr p =>
      match s with
      | c :: s' => if p c then k (Some c) s' g else None
      | [] => None
      end
  | Bol => match prev with None => k prev s g | Some _ => None end
  | Wordb => if at_boundary prev s then k prev s g else None
  | Seq a b => run a prev s g (fun prev' s' g' => run b prev' s' g' k)
  | Opt a =>
      match run a prev s g k with
      | Some m => Some m
      | None => k prev s g
      end
  | Star p => star p (fun prev' s' => k prev' s' g) prev s
  | Group a =>
      run a prev s g
        (fun prev' s' _ => k prev' s' (Some (firstn (length s - length s') s)))
  end.

(** The pattern tried at one position. *)
Definition re_at (r : regex) (prev : option ascii) (s : text) : option re_result :=
  run r prev s None (fun _ rest g => Some (rest, g)).

(** [pattern.match(s)]. *)
Definition re_match (r : regex) (s : text) : option re_result := re_at r None s.

(** [re.search(pattern, s)]: the leftmost position with a match. *)
Fixpoint re_search_from (r : regex) (prev : option ascii) (s : text)
    : option re_result :=
  match re_at r prev s with
  | Some m => Some m
  | None =>
      match s with
      | [] => None
      | c :: s' => re_search_from r (Some c) s'
      end
  end.

Definition re_search (r : regex) (s : text) : option re_result :=
  re_search_from r None s.

(** [m.group(1)], for patterns whose group 1 takes part in every match. *)
Definition group1 (m : re_result) : text :=
  match snd m with Some g => g | None => [] end.

(** The number of characters a match at the head of [s] takes. *)
Definition re_length_at (r : regex) (prev : option ascii) (s : text) : option nat :=
  match re_at r prev s with
  | Some (rest, _) => Some (length s - length rest)
  | None => None
  end.

(** [re.sub(pattern, "", s)]: scanning from the left, a match is dropped and
    the scan resumes after it; a character at which nothing (or only the
    empty text) matches is kept.  [skip] counts the characters of the
    current match that are still to be dropped. *)
Fixpoint re_sub_from (r : regex) (skip : nat) (prev : option ascii) (s : text)
    : text :=
  match s with
  | [] => []
  | c :: s' =>
      match skip with
      | S n => re_sub_from r n (Some c) s'
      | O =>
          match re_length_at r prev s with
          | Some (S n) => re_sub_from r n (Some c) s'
          | _ => c :: re_sub_from r 0 (Some c) s'
          end
      end
  end.

Definition re_sub_empty (r : regex) (s : text) : text := re_sub_from r 0 None s.

(** ** The three patterns *)

Definition chr (n : N) : regex := Chr (is_code n).

(** [tool_re = re.compile(r"^\s*M108\s+T(\d+)\b", re.IGNORECASE)] *)
Definition tool_re : regex :=
  (Bol ;; Star isspace ;; Chr is_M ;; chr 49 ;; chr 48 ;; chr 56 ;;
   Plus isspace ;; Chr is_T ;; Group (Plus isdigit) ;; Wordb)%regex.

(** [r"(?i)\bS(-?\d+(?:\.\d+)?)\b"] *)
Definition speed_re : regex :=
  (Wordb ;; Chr is_S ;;
   Group (Opt (chr 45) ;; Plus isdigit ;; Opt (chr 46 ;; Plus isdigit)) ;;
   Wordb)%regex.

(** [r"(?i)\s*T\d+\b"] *)
Definition tool_param_re : regex :=
  (Star isspace ;; Chr is_T ;; Plus isdigit ;; Wordb)%regex.

(** [tool_re.match(stripped)], as the digits of group 1. *)
Definition tool_re_match (stripped : text) : option text :=
  option_map group1 (re_match tool_re stripped).

(** [re.search(speed pattern, code)], as the text of group 1. *)
Definition search_speed (code : text) : option text :=
  option_map group1 (re_search speed_re code).

(** [re.sub(tool parameter pattern, "", code)] *)
Definition remove_tool_param (code : text) : text :=
  re_sub_empty tool_param_re code.

(** *** Scanners

    In [tool_re] and in the tool parameter pattern every quantifier is
    followed by something its class excludes, so the longest run is the
    only one with which the rest can match.  The two scanners below take
    the longest runs; they are proved equal to the patterns and used in the
    proofs. *)

Definition tool_re_scan (stripped : text) : option text :=
  match dropwhile isspace stripped with
  | m :: c1 :: c0 :: c8 :: s1 =>
      if is_M m && is_code 49 c1 && is_code 48 c0 && is_code 56 c8 then
        match takewhile isspace s1, dropwhile isspace s1 with
        | _ :: _, t :: s2 =>
            if is_T t then
              let digits := takewhile isdigit s2 in
              match digits with
              | [] => None
              | _ :: _ =>
                  if at_boundary (last_char digits) (dropwhile isdigit s2)
                  then Some digits else None
              end
            else None
        | _, _ => None
        end
      else None
  | _ => None
  end.

(** The length of the match of the tool parameter pattern at the head of
    [s]. *)
Definition tool_param_at (s : text) : option nat :=
  let ws := takewhile isspace s in
  match dropwhile isspace s with
  | t :: r =>
      if is_T t then
        let digits := takewhile isdigit r in
        match digits with
        | [] => None
        | _ :: _ =>
            if at_boundary (last_char digits) (dropwhile isdigit r)
            then Some (length ws + 1 + length digits) else None
        end
      else None
  | [] => None
  end.

(** ** process_lines *)

Record state := State {
  current_tool : option text;
  last_fan_speed : option text
}.

Definition init : state := State None None.

(** The newline style of a line and the line without it. *)
Definition split_eol (line : text) : text * text :=
  if endswith line [CR; LF] then (drop_last 2 line, [CR; LF])
  else if endswith line [LF] then (drop_last 1 line, [LF])
  else (line, [LF]).

Definition is_some {A} (o : option A) : bool :=
  match o with Some _ => true | None => false end.

Definition nonempty (s : text) : bool :=
  match s with [] => false | _ :: _ => true end.

(** One iteration of the loop: the state after the line and the lines
    appended to [out]. *)
Definition process_line (st : state) (line : text) : state * list text :=
  let (stripped, eol) := split_eol line in
  match tool_re_match stripped with
  | Some tool =>
      (State (Some tool) (last_fan_speed st),
       (stripped ++ eol)
       :: match last_fan_speed st with
          | Some speed => [txt "M106 S" ++ speed ++ txt " T" ++ tool ++ eol]
          | None => []
          end)
  | None =>
      let pass := (st, [stripped ++ eol]) in
      match current_tool st with
      | Some tool =>
          if startswith (upper (lstrip stripped)) (txt "M106") then
            let (code, rest) := split_semicolon stripped in
            let comment_suffix :=
              match rest with Some r => txt ";" ++ r | None => [] end in
            match search_speed code with
            | Some speed =>
                let code_no_t := remove_tool_param code in
                let new_code := rstrip code_no_t ++ txt " T" ++ tool in
                let new_line :=
                  new_code
                  ++ (if nonempty comment_suffix
                         && negb (endswith new_code (txt " "))
                      then txt " " else [])
                  ++ comment_suffix in
                (State (Some tool) (Some speed), [new_line ++ eol])
            | None => pass
            end
          else pass
      | None => pass
      end
  end.

(** The loop: [out] starts empty and every iteration appends to it. *)
Definition loop_body (acc : state * list text) (line : text)
    : state * list text :=
  let (st', emitted) := process_line (fst acc) line in
  (st', snd acc ++ emitted).

Definition process_lines (lines : list text) : list text :=
  snd (fold_left loop_body lines (init, [])).

(** What the loop appends to [out] when it runs on [lines] from the state
    [st]. *)
Fixpoint process_from (st : state) (lines : list text) : list text :=
  match lines with
  | [] => []
  | line :: lines' =>
      let (st', emitted) := process_line st line in
      emitted ++ process_from st' lines'
  end.

(** The state after the loop has consumed [lines]. *)
Fixpoint state_after (st : state) (lines : list text) : state :=
  match lines with
  | [] => st
  | line :: lines' => state_after (fst (process_line st line)) lines'
  end.

(** ** Vocabulary of the specification *)

(** The three branches of the loop body, in the order they are tested. *)
Inductive line_class := ToolSelect | FanSpeedRewrite | PassThrough.

Definition content (line : text) : text := fst (split_eol line).

Definition is_fan_speed_line (line : text) : bool :=
  startswith (upper (lstrip (content line))) (txt "M106").

Definition speed_parameter (line : text) : option text :=
  search_speed (fst (split_semicolon (content line))).

Definition classify (st : state) (line : text) : line_class :=
  if is_some (tool_re_match (content line)) then ToolSelect
  else if is_fan_speed_line line && is_some (current_tool st)
          && is_some (speed_parameter line)
  then FanSpeedRewrite
  else PassThrough.

(** What the pass-through branch appends: the line itself when it ends in
    LF (alone or after CR), the line followed by LF when it does not. *)
Definition with_eol (line : text) : text :=
  if endswith line [LF] then line else line ++ [LF].

Definition is_space_char (c : ascii) : bool := is_code 32 c.

Fixpoint has_double_space (s : text) : bool :=
  match s with
  | a :: (b :: _) as r => (is_space_char a && is_space_char b) || has_double_space r
  | _ => false
  end.

Definition all_digits (s : text) : bool := forallb isdigit s.

(** The tool of a run is a non-empty string of digits. *)
Definition tool_well_formed (st : state) : Prop :=
  forall tool, current_tool st = Some tool ->
               tool <> [] /\ all_digits tool = true.

(** The text does not end in whitespace. *)
Definition no_trailing_space (s : text) : Prop :=
  match last_char s with Some c => isspace c = false | None => True end.

(** A line given as its content followed by LF, or by CR LF. *)
Definition lf (s : string) : text := txt s ++ [LF].
Definition crlf (s : string) : text := txt s ++ [CR; LF].

(** ** Further vocabulary *)

Definition is_tool_select (line : text) : bool :=
  is_some (tool_re_match (content line)).

Definition count_tool_select (lines : list text) : nat :=
  length (filter is_tool_select lines).

(** The fan-speed lines that carry a speed parameter. *)
Definition has_speed (line : text) : bool :=
  is_fan_speed_line line && is_some (speed_parameter line).

(** The characters the tool parameter pattern can take: whitespace, T and
    digits. *)
Definition removable (c : ascii) : bool := isspace c || is_T c || isdigit c.

(** The texts [-?\d+(\.\d+)?]: an optional minus sign, digits, and
    optionally a dot and digits. *)
Definition numeral (g : text) : bool :=
  let body := match g with
              | c :: r => if is_code 45 c then r else g
              | [] => []
              end in
  nonempty (takewhile isdigit body)
  && match dropwhile isdigit body with
     | [] => true
     | dot :: frac => is_code 46 dot && nonempty frac && all_digits frac
     end.

(** A scanner for the speed pattern at one position, proved equal to the
    pattern: the sign, the longest run of digits, then the fraction with its
    longest run of digits if a word boundary follows it, and the integer
    part alone otherwise. *)
Definition speed_at (prev : option ascii) (s : text) : option text :=
  match s with
  | [] => None
  | c :: r =>
      if at_boundary prev s && is_S c then
        let sign := match r with
                    | m :: _ => if is_code 45 m then [m] else []
                    | [] => []
                    end in
        let r1 := skipn (length sign) r in
        let int := takewhile isdigit r1 in
        let r2 := dropwhile isdigit r1 in
        match int with
        | [] => None
        | _ :: _ =>
            let with_fraction :=
              match r2 with
              | dot :: r3 =>
                  let frac := takewhile isdigit r3 in
                  if is_code 46 dot && nonempty frac
                     && at_boundary (last_char frac) (dropwhile isdigit r3)
                  then Some (sign ++ int ++ dot :: frac) else None
              | [] => None
              end in
            match with_fraction with
            | Some g => Some g
            | None =>
                if at_boundary (last_char int) r2 then Some (sign ++ int)
                else None
            end
        end
      else None
  end.

(** A speed is saved only once a tool has been selected. *)
Definition speed_needs_tool (st : state) : Prop :=
  last_fan_speed st <> None -> current_tool st <> None.

(** The saved speed is a numeral. *)
Definition speed_is_numeral (st : state) : Prop :=
  forall g, last_fan_speed st = Some g -> numeral g = true.

(** ** main

    [main] is modelled in what it computes between its calls to the file
    system: [text.splitlines(True)], [process_lines] and ["".join]. *)

(** The line boundaries of [str.splitlines] below 256: LF, VT, FF, CR, FS,
    GS, RS and NEL; CR LF is one boundary. *)
Definition is_linebreak (c : ascii) : bool :=
  in_range 10 13 c || in_range 28 30 c || is_code 133 c.

(** [text.splitlines(True)], with the line read so far in [cur]. *)
Fixpoint splitlines_from (cur : text) (s : text) : list text :=
  match s with
  | [] => match cur with [] => [] | _ :: _ => [cur] end
  | c :: r =>
      if is_code 13 c then
        match r with
        | d :: r' =>
            if is_code 10 d then (cur ++ [c; d]) :: splitlines_from [] r'
            else (cur ++ [c]) :: splitlines_from [] r
        | [] => [cur ++ [c]]
        end
      else if is_linebreak c then (cur ++ [c]) :: splitlines_from [] r
      else splitlines_from (cur ++ [c]) r
  end.

Definition splitlines (s : text) : list text := splitlines_from [] s.

(** ["".join(out_lines)] *)
Definition join (lines : list text) : text := concat lines.

(** The text [main] writes, from the text it has read. *)
Definition rewrite_text (s : text) : text :=
  join (process_lines (splitlines s)).

(** * Properties *)

(** ** Character classes *)

Ltac all_chars c :=
  destruct c as [[] [] [] [] [] [] [] []]; vm_compute;
  try reflexivity; try discriminate; auto.

Lemma digit_is_word c : isdigit c = true -> isword c = true.
Proof. all_chars c. Qed.

Lemma space_not_word c : isspace c = true -> isword c = false.
Proof. all_chars c. Qed.

Lemma space_not_T c : isspace c = true -> is_T c = false.
Proof. all_chars c. Qed.

Lemma space_char_is_space c : is_space_char c = true -> isspace c = true.
Proof. all_chars c. Qed.

Lemma digit_not_semicolon c : isdigit c = true -> is_code 59 c = false.
Proof. all_chars c. Qed.

Lemma upper_digit c d :
  isdigit d = true -> Ascii.eqb (upper_char c) d = Ascii.eqb c d.
Proof.
  intros Hd. destruct (Ascii.eqb_spec c d) as [->|Hne].
  - assert (upper_char d = d) as -> by (revert Hd; all_chars d).
    apply Ascii.eqb_refl.
  - destruct (Ascii.eqb_spec (upper_char c) d) as [<-|]; [|reflexivity].
    exfalso. revert Hd Hne. all_chars c; intros _ H; now elim H.
Qed.

(** ** Lists of characters *)

Lemma takewhile_dropwhile p s : takewhile p s ++ dropwhile p s = s.
Proof.
  induction s as [|c s IH]; simpl; [reflexivity|].
  destruct (p c); simpl; [now rewrite IH | reflexivity].
Qed.

Lemma takewhile_all p s : Forall (fun c => p c = true) (takewhile p s).
Proof.
  induction s as [|c s IH]; simpl; [constructor|].
  destruct (p c) eqn:E; constructor; assumption.
Qed.

Lemma dropwhile_head p s c r : dropwhile p s = c :: r -> p c = false.
Proof.
  induction s as [|d s IH]; simpl; [discriminate|].
  destruct (p d) eqn:E; [exact IH|]. intros [= <- _]. exact E.
Qed.

Lemma takewhile_app_stop p a b :
  Forall (fun c => p c = true) a ->
  (match b with [] => True | c :: _ => p c = false end) ->
  takewhile p (a ++ b) = a /\ dropwhile p (a ++ b) = b.
Proof.
  intros Ha Hb. induction Ha as [|c a Hc _ [IH1 IH2]]; simpl.
  - destruct b as [|c b]; simpl; [auto|]. now rewrite Hb.
  - rewrite Hc, IH1, IH2. auto.
Qed.

Lemma startswith_app s p : startswith (p ++ s) p = true.
Proof.
  induction p as [|c p IH]; simpl; [reflexivity|].
  now rewrite Ascii.eqb_refl, IH.
Qed.

Lemma startswith_true s p : startswith s p = true -> exists r, s = p ++ r.
Proof.
  revert s. induction p as [|c p IH]; intros s H; simpl in *.
  - now exists s.
  - destruct s as [|d s]; [discriminate|].
    apply andb_prop in H as [H1 H2]. apply Ascii.eqb_eq in H1 as ->.
    destruct (IH _ H2) as [r ->]. now exists r.
Qed.

Lemma endswith_app s suffix : endswith (s ++ suffix) suffix = true.
Proof. unfold endswith. rewrite rev_app_distr. apply startswith_app. Qed.

Lemma endswith_true s suffix :
  endswith s suffix = true -> exists r, s = r ++ suffix.
Proof.
  unfold endswith. intros H. apply startswith_true in H as [r Hr].
  exists (rev r). apply (f_equal (@rev ascii)) in Hr.
  now rewrite rev_involutive, rev_app_distr, rev_involutive in Hr.
Qed.

Lemma drop_last_app s suffix : drop_last (length suffix) (s ++ suffix) = s.
Proof.
  unfold drop_last. rewrite length_app, Nat.add_sub.
  rewrite firstn_app, Nat.sub_diag, firstn_all. simpl. apply app_nil_r.
Qed.

Lemma drop_last_crlf s : drop_last 2 (s ++ [CR; LF]) = s.
Proof. exact (drop_last_app s [CR; LF]). Qed.

Lemma drop_last_lf s : drop_last 1 (s ++ [LF]) = s.
Proof. exact (drop_last_app s [LF]). Qed.

(** ** The patterns and their scanners *)

Lemma space_not_M c : isspace c = true -> is_M c = false.
Proof. all_chars c. Qed.

Lemma last_char_cons c d t : last_char (c :: d :: t) = last_char (d :: t).
Proof.
  unfold last_char. cbn [rev]. destruct (rev t) as [|x r]; reflexivity.
Qed.

Lemma prev_after_cons prev c t : prev_after prev (c :: t) = prev_after (Some c) t.
Proof.
  unfold prev_after. destruct t as [|d t]; [reflexivity|].
  rewrite last_char_cons.
  destruct (last_char (d :: t)) eqn:E; [reflexivity|].
  unfold last_char in E. destruct (rev (d :: t)) eqn:Er; [|discriminate].
  apply (f_equal (@length ascii)) in Er. rewrite length_rev in Er. discriminate.
Qed.

Lemma prev_after_last d t : prev_after (Some d) t = last_char (d :: t).
Proof.
  revert d. induction t as [|c t IH]; intros d; [reflexivity|].
  now rewrite prev_after_cons, IH, last_char_cons.
Qed.

(** A greedy run keeps all of its characters when what follows cannot
    start with one of them.  [good] is what is known of the character
    before the position where what follows is tried. *)
Lemma star_all (good : option ascii -> Prop) p k :
  (forall c, p c = true -> good (Some c)) ->
  (forall q c r, good q -> p c = true -> k q (c :: r) = None) ->
  forall s prev, good prev ->
    star p k prev s = k (prev_after prev (takewhile p s)) (dropwhile p s).
Proof.
  intros Hp Hk. induction s as [|c s IH]; intros prev Hg; [reflexivity|].
  cbn [star takewhile dropwhile]. destruct (p c) eqn:Hc; [|reflexivity].
  rewrite (IH (Some c) (Hp c Hc)), prev_after_cons.
  destruct (k _ _) eqn:E; [reflexivity|]. now apply Hk.
Qed.

Lemma firstn_consumed (a b : text) :
  firstn (length (a ++ b) - length b) (a ++ b) = a.
Proof.
  rewrite length_app, Nat.add_sub, firstn_app, Nat.sub_diag, firstn_all.
  apply app_nil_r.
Qed.

Lemma firstn_takewhile p d (s : text) :
  firstn (length (d :: s) - length (dropwhile p s)) (d :: s) = d :: takewhile p s.
Proof.
  rewrite <- (takewhile_dropwhile p s) at 1 3.
  exact (firstn_consumed (d :: takewhile p s) (dropwhile p s)).
Qed.

(** [\d+\b] at the head of [s], after a character that is not part of the
    run: all the digits, and a word boundary after them. *)
Lemma run_digits_boundary prev s g
    (k : option ascii -> text -> option text -> option re_result) :
  run (Seq (Plus isdigit) Wordb) prev s g k
  = match takewhile isdigit s with
    | [] => None
    | _ :: _ =>
        if at_boundary (last_char (takewhile isdigit s)) (dropwhile isdigit s)
        then k (last_char (takewhile isdigit s)) (dropwhile isdigit s) g
        else None
    end.
Proof.
  cbn [run Plus]. destruct s as [|d s]; [reflexivity|].
  cbn [takewhile dropwhile]. destruct (isdigit d) eqn:Hd; [|reflexivity].
  rewrite (star_all (fun q => opt_word q = true)).
  - now rewrite prev_after_last.
  - intros c Hc. now apply digit_is_word.
  - intros q c r Hq Hc. unfold at_boundary. cbn [hd_error opt_word].
    now rewrite Hq, (digit_is_word _ Hc).
  - now apply digit_is_word.
Qed.

(** The match of the tool parameter pattern, whatever comes before it. *)
Lemma tool_param_re_at prev s :
  re_length_at tool_param_re prev s = tool_param_at s.
Proof.
  unfold re_length_at, re_at, tool_param_re, tool_param_at.
  cbn [run]. rewrite (star_all (fun _ => True)); auto.
  2:{ intros q c r _ Hc. now rewrite (space_not_T _ Hc). }
  pose proof (takewhile_dropwhile isspace s) as Es.
  destruct (dropwhile isspace s) as [|t r]; [reflexivity|].
  destruct (is_T t); [|reflexivity].
  pose proof (run_digits_boundary (Some t) r None
                (fun _ rest g => Some (rest, g))) as E.
  cbn [run Plus] in E. cbn [Plus run]. rewrite E. clear E.
  pose proof (takewhile_dropwhile isdigit r) as Er.
  destruct (takewhile isdigit r) as [|d ds]; [reflexivity|].
  destruct (at_boundary _ _); [|reflexivity].
  f_equal. rewrite <- Es at 1. rewrite <- Er at 1.
  rewrite !length_app. cbn [length]. rewrite length_app. cbn [length]. lia.
Qed.

(** [tool_re.match] is the scanner. *)
Lemma tool_re_match_scan s : tool_re_match s = tool_re_scan s.
Proof.
  unfold tool_re_match, re_match, re_at, tool_re, tool_re_scan, chr.
  cbn [run]. rewrite (star_all (fun _ => True)); auto.
  2:{ intros q c r _ Hc. now rewrite (space_not_M _ Hc). }
  destruct (dropwhile isspace s) as [|m [|c1 [|c0 [|c8 s1]]]];
    try reflexivity;
    try (destruct (is_M m); [|reflexivity]);
    try (destruct (is_code 49 c1); [|reflexivity]);
    try (destruct (is_code 48 c0); [|reflexivity]);
    try reflexivity.
  destruct (is_code 56 c8); [|reflexivity]. cbn [andb Plus run].
  destruct s1 as [|w s1]; [reflexivity|]. cbn [takewhile dropwhile].
  destruct (isspace w) eqn:Hw; [|reflexivity].
  rewrite (star_all (fun _ => True)); auto.
  2:{ intros q c r _ Hc. now rewrite (space_not_T _ Hc). }
  destruct (dropwhile isspace s1) as [|t s2]; [reflexivity|].
  destruct (is_T t); [|reflexivity].
  destruct s2 as [|d s2]; [reflexivity|]. cbn [takewhile dropwhile].
  destruct (isdigit d) eqn:Hd; [|reflexivity].
  rewrite (star_all (fun q => opt_word q = true)).
  - rewrite prev_after_last. destruct (at_boundary _ _); [|reflexivity].
    cbn [option_map group1 snd]. now rewrite firstn_takewhile.
  - intros c Hc. now apply digit_is_word.
  - intros q c r Hq Hc. unfold at_boundary. cbn [hd_error opt_word].
    now rewrite Hq, (digit_is_word _ Hc).
  - now apply digit_is_word.
Qed.

(** ** Newline styles *)

Lemma endswith_crlf_lf s : endswith s [CR; LF] = true -> endswith s [LF] = true.
Proof.
  intros H. apply endswith_true in H as [r ->].
  change [CR; LF] with ([CR] ++ [LF]). rewrite app_assoc. apply endswith_app.
Qed.

(** The three branches of the newline test. *)
Lemma split_eol_cases line :
  (exists s, line = s ++ [CR; LF] /\ split_eol line = (s, [CR; LF]))
  \/ (exists s, line = s ++ [LF] /\ endswith s [CR] = false
                /\ split_eol line = (s, [LF]))
  \/ (endswith line [LF] = false /\ split_eol line = (line, [LF])).
Proof.
  unfold split_eol.
  destruct (endswith line [CR; LF]) eqn:E2.
  - left. apply endswith_true in E2 as [s ->]. exists s. split; [reflexivity|].
    now rewrite drop_last_crlf.
  - destruct (endswith line [LF]) eqn:E1.
    + right; left. apply endswith_true in E1 as [s ->]. exists s.
      rewrite drop_last_lf. repeat split.
      destruct (endswith s [CR]) eqn:E; [|reflexivity].
      apply endswith_true in E as [r ->].
      rewrite <- app_assoc in E2. simpl in E2.
      now rewrite (endswith_app r [CR; LF]) in E2.
    + right; right. auto.
Qed.

Lemma split_eol_emit line :
  fst (split_eol line) ++ snd (split_eol line) = with_eol line.
Proof.
  unfold with_eol.
  destruct (split_eol_cases line) as [(s & -> & ->)|[(s & -> & _ & ->)|(E & ->)]];
    simpl.
  - now rewrite (endswith_crlf_lf _ (endswith_app s [CR; LF])).
  - now rewrite (endswith_app s [LF]).
  - now rewrite E.
Qed.

Lemma split_eol_lf s :
  endswith s [CR] = false -> split_eol (s ++ [LF]) = (s, [LF]).
Proof.
  intros H. unfold split_eol.
  destruct (endswith (s ++ [LF]) [CR; LF]) eqn:E.
  - apply endswith_true in E as [r E].
    change [CR; LF] with ([CR] ++ [LF]) in E. rewrite app_assoc in E.
    apply app_inj_tail in E as [-> _]. now rewrite endswith_app in H.
  - now rewrite endswith_app, drop_last_lf.
Qed.

Lemma split_eol_crlf s : split_eol (s ++ [CR; LF]) = (s, [CR; LF]).
Proof.
  unfold split_eol. now rewrite endswith_app, drop_last_crlf.
Qed.

(** ** The loop *)

Lemma loop_from st out lines :
  fold_left loop_body lines (st, out)
  = (state_after st lines, out ++ process_from st lines).
Proof.
  revert st out. induction lines as [|l lines IH]; intros st out.
  - cbn. now rewrite app_nil_r.
  - cbn [fold_left state_after process_from]. unfold loop_body at 2.
    cbn [fst snd]. destruct (process_line st l) as [st' emitted].
    rewrite IH. cbn [fst]. now rewrite app_assoc.
Qed.

Lemma process_lines_from lines : process_lines lines = process_from init lines.
Proof. unfold process_lines. now rewrite loop_from. Qed.

Lemma process_from_app st a b :
  process_from st (a ++ b) = process_from st a ++ process_from (state_after st a) b.
Proof.
  revert st. induction a as [|l a IH]; intros st; simpl; [reflexivity|].
  destruct (process_line st l) as [st' e]. simpl. now rewrite IH, app_assoc.
Qed.

Lemma state_after_app st a b :
  state_after st (a ++ b) = state_after (state_after st a) b.
Proof.
  revert st. induction a as [|l a IH]; intros st; simpl; [reflexivity|apply IH].
Qed.

Lemma process_from_cons st line lines :
  process_from st (line :: lines)
  = snd (process_line st line) ++ process_from (fst (process_line st line)) lines.
Proof. simpl. now destruct (process_line st line). Qed.

(** The loop body, branch by branch. *)
Lemma process_line_tool st line tool :
  tool_re_match (content line) = Some tool ->
  process_line st line
  = (State (Some tool) (last_fan_speed st),
     with_eol line
     :: match last_fan_speed st with
        | Some speed =>
            [txt "M106 S" ++ speed ++ txt " T" ++ tool ++ snd (split_eol line)]
        | None => []
        end).
Proof.
  intros H. unfold process_line, content in *. rewrite <- split_eol_emit.
  destruct (split_eol line) as [stripped eol]. cbn in *. now rewrite H.
Qed.

Lemma process_line_pass st line :
  classify st line = PassThrough -> process_line st line = (st, [with_eol line]).
Proof.
  unfold classify, is_fan_speed_line, speed_parameter, process_line, content.
  rewrite <- split_eol_emit.
  destruct (split_eol line) as [stripped eol]. cbn [fst snd].
  destruct (tool_re_match stripped); cbn [is_some]; [discriminate|].
  destruct (current_tool st); cbn [is_some]; [|now rewrite ?andb_false_r].
  destruct (startswith (upper (lstrip stripped)) (txt "M106")); [|reflexivity].
  destruct (split_semicolon stripped) as [code rest]. cbn [fst andb].
  destruct (search_speed code); cbn [is_some]; [discriminate|reflexivity].
Qed.

Lemma process_line_rewrite st line :
  classify st line = FanSpeedRewrite ->
  exists tool speed new_line,
    current_tool st = Some tool /\ speed_parameter line = Some speed
    /\ process_line st line = (State (Some tool) (Some speed), [new_line]).
Proof.
  unfold classify, is_fan_speed_line, speed_parameter, process_line, content.
  destruct (split_eol line) as [stripped eol]. cbn [fst snd].
  destruct (tool_re_match stripped); cbn [is_some]; [discriminate|].
  destruct (current_tool st) as [tool|]; cbn [is_some];
    [|now rewrite ?andb_false_r].
  destruct (startswith (upper (lstrip stripped)) (txt "M106")); [|discriminate].
  destruct (split_semicolon stripped) as [code rest]. cbn [fst andb].
  destruct (search_speed code) as [speed|]; cbn [is_some]; [|discriminate].
  intros _. eauto 6.
Qed.

Lemma classify_tool st line :
  classify st line = ToolSelect -> exists tool, tool_re_match (content line) = Some tool.
Proof.
  unfold classify. destruct (tool_re_match (content line)); cbn; [eauto|].
  now destruct (_ && _).
Qed.

Lemma classify_cases st line :
  classify st line = ToolSelect \/ classify st line = FanSpeedRewrite
  \/ classify st line = PassThrough.
Proof. destruct (classify st line); auto. Qed.

Lemma process_line_emits st line :
  (exists x, snd (process_line st line) = [x])
  \/ (exists tool speed,
        tool_re_match (content line) = Some tool
        /\ last_fan_speed st = Some speed
        /\ snd (process_line st line)
           = [with_eol line;
              txt "M106 S" ++ speed ++ txt " T" ++ tool ++ snd (split_eol line)]).
Proof.
  destruct (classify_cases st line) as [H|[H|H]].
  - apply classify_tool in H as [tool H].
    rewrite (process_line_tool st _ _ H). cbn [snd].
    destruct (last_fan_speed st) as [speed|]; [right|left; eauto].
    exists tool, speed. auto.
  - apply process_line_rewrite in H as (tool & speed & new_line & _ & _ & ->).
    left. now exists new_line.
  - rewrite (process_line_pass _ _ H). left. now exists (with_eol line).
Qed.

Lemma process_from_length st lines :
  length lines <= length (process_from st lines).
Proof.
  revert st. induction lines as [|l lines IH]; intros st; [apply Nat.le_refl|].
  rewrite process_from_cons, length_app. cbn [length].
  specialize (IH (fst (process_line st l))).
  destruct (process_line_emits st l) as [[x ->]|(? & ? & _ & _ & ->)];
    cbn [length]; lia.
Qed.

(** ** The digits of a tool-select line *)

Lemma tool_re_match_digits s tool :
  tool_re_match s = Some tool -> tool <> [] /\ all_digits tool = true.
Proof.
  rewrite tool_re_match_scan. unfold tool_re_scan.
  destruct (dropwhile isspace s) as [|m [|c1 [|c0 [|c8 s1]]]]; try discriminate.
  destruct (_ && _); [|discriminate].
  destruct (takewhile isspace s1); [discriminate|].
  destruct (dropwhile isspace s1) as [|t' s2]; [discriminate|].
  destruct (is_T t'); [|discriminate].
  pose proof (takewhile_all isdigit s2) as Hall.
  destruct (takewhile isdigit s2) as [|d ds] eqn:E; [discriminate|].
  destruct (at_boundary _ _); [|discriminate].
  intros [= <-]. split; [discriminate|].
  unfold all_digits. now apply forallb_forall, Forall_forall.
Qed.

(** A line that starts with M106 is not a tool-select line. *)
Lemma fan_speed_not_tool_select s :
  startswith (upper (lstrip s)) (txt "M106") = true -> tool_re_match s = None.
Proof.
  rewrite tool_re_match_scan. unfold tool_re_scan, lstrip.
  destruct (dropwhile isspace s) as [|m [|c1 [|c0 [|c8 s1]]]]; try reflexivity.
  unfold txt. cbn [upper map list_ascii_of_string startswith].
  intros H. repeat (apply andb_prop in H as [? H]).
  assert (E : is_code 56 c8 = false).
  { rewrite upper_digit in * by reflexivity.
    match goal with E : Ascii.eqb c8 _ = true |- _ =>
      apply Ascii.eqb_eq in E; now subst end. }
  now rewrite E, !andb_false_r.
Qed.

(** Until a tool-select line has been read the state is the initial one. *)
Lemma process_line_no_tool st line :
  current_tool st = None -> tool_re_match (content line) = None ->
  process_line st line = (st, [with_eol line]).
Proof.
  intros Ht Hm. apply process_line_pass. unfold classify.
  now rewrite Hm, Ht, andb_false_r.
Qed.

Lemma state_after_unset st pre :
  current_tool st = None ->
  Forall (fun l => tool_re_match (content l) = None) pre ->
  state_after st pre = st.
Proof.
  intros Hst Hall. induction Hall as [|l pre Hl _ IH]; [reflexivity|].
  cbn [state_after]. now rewrite (process_line_no_tool st l Hst Hl).
Qed.

(** Only the tool-select branch writes [current_tool], only the rewrite
    branch writes [last_fan_speed], and neither writes [None]. *)
Lemma process_line_state st line :
  let st' := fst (process_line st line) in
  match classify st line with
  | ToolSelect =>
      current_tool st' = tool_re_match (content line)
      /\ tool_re_match (content line) <> None
      /\ last_fan_speed st' = last_fan_speed st
  | FanSpeedRewrite =>
      current_tool st' = current_tool st /\ current_tool st <> None
      /\ last_fan_speed st' = speed_parameter line
      /\ speed_parameter line <> None
  | PassThrough => st' = st
  end.
Proof.
  destruct (classify st line) eqn:H; cbv zeta.
  - apply classify_tool in H as [tool H].
    rewrite (process_line_tool st _ _ H), H. cbn. repeat split. discriminate.
  - apply process_line_rewrite in H as (tool & speed & new_line & Ht & Hs & ->).
    rewrite Ht, Hs. cbn. repeat split; discriminate.
  - now rewrite (process_line_pass _ _ H).
Qed.

Lemma state_after_keeps_set st lines :
  (current_tool st <> None -> current_tool (state_after st lines) <> None)
  /\ (last_fan_speed st <> None -> last_fan_speed (state_after st lines) <> None).
Proof.
  revert st. induction lines as [|l lines IH]; intros st; [now split|].
  cbn [state_after]. pose proof (process_line_state st l) as H. cbv zeta in H.
  destruct (IH (fst (process_line st l))) as [IH1 IH2].
  revert H. destruct (classify st l).
  - intros (E1 & E2 & E3). split; intros Hset.
    + apply IH1. now rewrite E1.
    + apply IH2. now rewrite E3.
  - intros (E1 & E2 & E3 & E4). split; intros Hset.
    + apply IH1. now rewrite E1.
    + apply IH2. rewrite E3. exact E4.
  - intros E. rewrite E in *. now split.
Qed.

(** ** The rewrite branch *)

Lemma split_semicolon_spec s :
  Forall (fun c => is_code 59 c = false) (fst (split_semicolon s))
  /\ match snd (split_semicolon s) with
     | Some r => s = fst (split_semicolon s) ++ txt ";" ++ r
     | None => s = fst (split_semicolon s)
     end.
Proof.
  induction s as [|c s [IH1 IH2]]; cbn [split_semicolon]; [now split|].
  destruct (is_code 59 c) eqn:E.
  - cbn. split; [constructor|]. f_equal. revert E. all_chars c.
  - destruct (split_semicolon s) as [a b]. cbn [fst snd] in *. split.
    + now constructor.
    + destruct b; cbn [app]; now f_equal.
Qed.

Lemma split_semicolon_app code r :
  Forall (fun c => is_code 59 c = false) code ->
  split_semicolon (code ++ txt ";" ++ r) = (code, Some r).
Proof.
  induction 1 as [|c code Hc _ IH]; [reflexivity|].
  cbn [app split_semicolon]. now rewrite Hc, IH.
Qed.

Lemma split_semicolon_none code :
  Forall (fun c => is_code 59 c = false) code ->
  split_semicolon code = (code, None).
Proof.
  induction 1 as [|c code Hc _ IH]; [reflexivity|].
  cbn [split_semicolon]. now rewrite Hc, IH.
Qed.

(** The rewrite branch of the loop body. *)
Lemma process_line_fan st line tool speed :
  current_tool st = Some tool ->
  is_fan_speed_line line = true ->
  speed_parameter line = Some speed ->
  let code := fst (split_semicolon (content line)) in
  let comment_suffix :=
    match snd (split_semicolon (content line)) with
    | Some r => txt ";" ++ r
    | None => []
    end in
  let new_code := rstrip (remove_tool_param code) ++ txt " T" ++ tool in
  process_line st line
  = (State (Some tool) (Some speed),
     [(new_code
       ++ (if nonempty comment_suffix && negb (endswith new_code (txt " "))
           then txt " " else [])
       ++ comment_suffix) ++ snd (split_eol line)]).
Proof.
  unfold is_fan_speed_line, speed_parameter, process_line, content.
  destruct (split_eol line) as [stripped eol]. cbn [fst snd].
  intros Ht Hf Hs. rewrite (fan_speed_not_tool_select _ Hf), Ht, Hf.
  destruct (split_semicolon stripped) as [code rest]. cbn [fst snd] in *.
  now rewrite Hs.
Qed.

Lemma last_char_app_nonempty a b :
  b <> [] -> last_char (a ++ b) = last_char b.
Proof.
  unfold last_char. rewrite rev_app_distr. intros H.
  destruct (rev b) eqn:E; [|reflexivity].
  apply (f_equal (@rev ascii)) in E. rewrite rev_involutive in E. contradiction.
Qed.

Lemma last_char_digits t :
  t <> [] -> all_digits t = true ->
  exists d, last_char t = Some d /\ isdigit d = true.
Proof.
  intros Hne Hd. destruct (rev t) as [|d r] eqn:E.
  - apply (f_equal (@rev ascii)) in E. rewrite rev_involutive in E. contradiction.
  - exists d. unfold last_char. rewrite E. split; [reflexivity|].
    unfold all_digits in Hd. rewrite forallb_forall in Hd.
    apply Hd, in_rev. rewrite E. now left.
Qed.

Lemma endswith_last s c :
  endswith s [c] = match last_char s with
                   | Some d => Ascii.eqb d c
                   | None => false
                   end.
Proof.
  unfold endswith, last_char. cbn [rev app].
  destruct (rev s); cbn; [reflexivity|apply andb_true_r].
Qed.

Lemma digit_not_space_char d : isdigit d = true -> Ascii.eqb d " " = false.
Proof. all_chars d. Qed.

(** Text that ends with the digits of a tool does not end with a space. *)
Lemma tool_suffix_no_space a tool :
  tool <> [] -> all_digits tool = true ->
  endswith (a ++ txt " T" ++ tool) (txt " ") = false.
Proof.
  intros Hne Hd. destruct (last_char_digits _ Hne Hd) as (d & Hl & Hdig).
  change (txt " ") with [" "%char]. rewrite endswith_last.
  rewrite app_assoc, (last_char_app_nonempty _ _ Hne), Hl.
  now apply digit_not_space_char.
Qed.

Lemma process_line_tool_well_formed st line :
  tool_well_formed st -> tool_well_formed (fst (process_line st line)).
Proof.
  intros Hwf. pose proof (process_line_state st line) as H. cbv zeta in H.
  revert H. destruct (classify st line).
  - intros (E & _ & _) tool Ht. rewrite E in Ht.
    now apply tool_re_match_digits in Ht.
  - intros (E & _) tool Ht. rewrite E in Ht. now apply Hwf.
  - now intros ->.
Qed.

Lemma state_after_tool_well_formed st lines :
  tool_well_formed st -> tool_well_formed (state_after st lines).
Proof.
  revert st. induction lines as [|l lines IH]; intros st H; [exact H|].
  cbn [state_after]. now apply IH, process_line_tool_well_formed.
Qed.

Lemma run_tool_well_formed lines : tool_well_formed (state_after init lines).
Proof. apply state_after_tool_well_formed. intros tool [=]. Qed.

(** ** Removing tool parameters *)

(** The pattern starts with [\s*]: where it fails at a whitespace
    character it fails just after it too. *)
Lemma tool_param_at_space c r :
  isspace c = true ->
  tool_param_at (c :: r) = option_map S (tool_param_at r).
Proof.
  intros Hc. unfold tool_param_at. cbn [takewhile dropwhile]. rewrite Hc.
  destruct (dropwhile isspace r) as [|t r1]; [reflexivity|].
  destruct (is_T t); [|reflexivity].
  destruct (takewhile isdigit r1); [reflexivity|].
  destruct (at_boundary _ _); reflexivity.
Qed.

Lemma tool_param_at_positive s n : tool_param_at s = Some n -> 0 < n.
Proof.
  unfold tool_param_at.
  destruct (dropwhile isspace s) as [|t r]; [discriminate|].
  destruct (is_T t); [|discriminate].
  destruct (takewhile isdigit r); [discriminate|].
  destruct (at_boundary _ _); [|discriminate].
  intros [= <-]. lia.
Qed.

Lemma re_sub_prev_irrelevant n prev s :
  re_sub_from tool_param_re n prev s = re_sub_from tool_param_re n None s.
Proof.
  destruct s as [|c s]; [reflexivity|].
  cbn [re_sub_from]. now rewrite !tool_param_re_at.
Qed.

Lemma re_sub_skip n s :
  re_sub_from tool_param_re n None s = remove_tool_param (skipn n s).
Proof.
  revert n. induction s as [|c s IH]; intros [|n]; try reflexivity.
  cbn [re_sub_from skipn]. rewrite re_sub_prev_irrelevant. apply IH.
Qed.

(** The two equations of the substitution. *)
Lemma remove_tool_param_match s n :
  tool_param_at s = Some n ->
  remove_tool_param s = remove_tool_param (skipn n s).
Proof.
  intros H. pose proof (tool_param_at_positive _ _ H) as Hn.
  unfold remove_tool_param at 1. unfold re_sub_empty. destruct s as [|c r].
  - now rewrite skipn_nil.
  - cbn [re_sub_from]. rewrite tool_param_re_at, H. destruct n as [|k]; [lia|].
    cbn [skipn]. rewrite re_sub_prev_irrelevant. apply re_sub_skip.
Qed.

Lemma remove_tool_param_keep c r :
  tool_param_at (c :: r) = None ->
  remove_tool_param (c :: r) = c :: remove_tool_param r.
Proof.
  intros H. unfold remove_tool_param, re_sub_empty. cbn [re_sub_from].
  now rewrite tool_param_re_at, H, re_sub_prev_irrelevant.
Qed.

Lemma has_double_space_cons a s :
  has_double_space (a :: s)
  = (is_space_char a
     && match s with b :: _ => is_space_char b | [] => false end)
    || has_double_space s.
Proof. destruct s; cbn; [now rewrite andb_false_r|reflexivity]. Qed.

Lemma has_double_space_skipn n s :
  has_double_space s = false -> has_double_space (skipn n s) = false.
Proof.
  revert s. induction n as [|n IH]; intros s H; [exact H|].
  destruct s as [|a s]; [reflexivity|]. cbn [skipn]. apply IH.
  rewrite has_double_space_cons in H. now apply orb_false_elim in H.
Qed.

(** Removal creates no double space: the whitespace in front of a removed
    parameter goes with it. *)
Lemma remove_tool_param_no_double_space code :
  has_double_space code = false ->
  has_double_space (remove_tool_param code) = false.
Proof.
  remember (length code) as n eqn:Hn. revert code Hn.
  induction n as [n IH] using lt_wf_ind. intros code Hn Hds.
  destruct code as [|c r]; [reflexivity|].
  destruct (tool_param_at (c :: r)) as [m|] eqn:Em.
  - rewrite (remove_tool_param_match _ _ Em).
    pose proof (tool_param_at_positive _ _ Em) as Hm.
    apply (IH (length (skipn m (c :: r)))); [|reflexivity|].
    + rewrite length_skipn. subst n. cbn [length]. lia.
    + now apply has_double_space_skipn.
  - rewrite (remove_tool_param_keep _ _ Em), has_double_space_cons.
    rewrite has_double_space_cons in Hds.
    apply orb_false_elim in Hds as [Hpair Hr].
    apply orb_false_intro.
    + destruct (is_space_char c) eqn:Hc; [|reflexivity]. cbn [andb] in *.
      rewrite (tool_param_at_space _ _ (space_char_is_space _ Hc)) in Em.
      destruct r as [|d r']; [reflexivity|].
      destruct (tool_param_at (d :: r')) eqn:Ed; [discriminate|].
      now rewrite (remove_tool_param_keep _ _ Ed).
    + apply (IH (length r)); [subst n; cbn; lia|reflexivity|exact Hr].
Qed.

Lemma has_double_space_app a b :
  has_double_space a = false -> has_double_space b = false ->
  match last_char a with Some c => is_space_char c = false | None => True end ->
  has_double_space (a ++ b) = false.
Proof.
  intros Ha Hb Hl. induction a as [|c a IH]; [exact Hb|].
  cbn [app]. rewrite has_double_space_cons in *.
  apply orb_false_elim in Ha as [Hpair Ha].
  destruct a as [|d a].
  - cbn [app]. unfold last_char in Hl. cbn in Hl. rewrite Hl. exact Hb.
  - cbn [app] in *. rewrite Hpair. apply IH; [exact Ha|].
    change (c :: d :: a) with ([c] ++ d :: a) in Hl.
    now rewrite last_char_app_nonempty in Hl by discriminate.
Qed.

Lemma has_double_space_prefix a b :
  has_double_space (a ++ b) = false -> has_double_space a = false.
Proof.
  induction a as [|c a IH]; [reflexivity|]. cbn [app].
  rewrite !has_double_space_cons. intros H.
  apply orb_false_elim in H as [Hpair H]. rewrite (IH H), orb_false_r.
  destruct a; [apply andb_false_r|exact Hpair].
Qed.

(** [rstrip] removes a run of whitespace from the end and stops at a
    character that is not whitespace. *)
Lemma rstrip_spec s :
  exists ws, s = rstrip s ++ ws
             /\ Forall (fun c => isspace c = true) ws
             /\ match last_char (rstrip s) with
                | Some c => isspace c = false
                | None => True
                end.
Proof.
  unfold rstrip, last_char. rewrite rev_involutive.
  exists (rev (takewhile isspace (rev s))). repeat split.
  - rewrite <- rev_app_distr, takewhile_dropwhile. symmetry. apply rev_involutive.
  - apply Forall_rev, takewhile_all.
  - destruct (dropwhile isspace (rev s)) as [|c r] eqn:E; [exact I|].
    cbn. exact (dropwhile_head _ _ _ _ E).
Qed.

Lemma all_digits_no_double_space t :
  all_digits t = true -> has_double_space t = false.
Proof.
  induction t as [|d t IH]; [reflexivity|]. cbn [all_digits forallb].
  intros H. apply andb_prop in H as [Hd Ht].
  rewrite has_double_space_cons, (IH Ht), orb_false_r.
  assert (is_space_char d = false) as -> by (revert Hd; all_chars d).
  reflexivity.
Qed.

Lemma not_space_not_space_char c : isspace c = false -> is_space_char c = false.
Proof. all_chars c. Qed.

(** Nor does appending the new tool parameter to the trimmed code. *)
Lemma rewritten_code_no_double_space code tool :
  has_double_space code = false -> all_digits tool = true ->
  has_double_space (rstrip (remove_tool_param code) ++ txt " T" ++ tool) = false.
Proof.
  intros Hcode Hd.
  pose proof (remove_tool_param_no_double_space _ Hcode) as Hrm.
  destruct (rstrip_spec (remove_tool_param code)) as (ws & E & _ & Hlast).
  apply has_double_space_app.
  - rewrite E in Hrm. now apply has_double_space_prefix in Hrm.
  - change (txt " T" ++ tool) with (" "%char :: "T"%char :: tool).
    rewrite !has_double_space_cons, (all_digits_no_double_space _ Hd).
    reflexivity.
  - destruct (last_char _); [now apply not_space_not_space_char|exact I].
Qed.

(** ** Lines that already carry the current tool *)

Lemma dropwhile_app p a b :
  dropwhile p a <> [] -> dropwhile p (a ++ b) = dropwhile p a ++ b.
Proof.
  induction a as [|c a IH]; cbn; [now intros []|].
  destruct (p c); [exact IH|reflexivity].
Qed.

Lemma dropwhile_head_in p a c r : dropwhile p a = c :: r -> In c a.
Proof.
  induction a as [|d a IH]; cbn; [discriminate|].
  destruct (p d); [auto|]. intros [= -> _]. now left.
Qed.

Lemma dropwhile_all p a :
  dropwhile p a = [] -> Forall (fun c => p c = true) a.
Proof.
  induction a as [|c a IH]; cbn; [constructor|].
  destruct (p c) eqn:E; [|discriminate]. intros H. constructor; auto.
Qed.

Lemma no_trailing_space_dropwhile c s :
  no_trailing_space (c :: s) -> dropwhile isspace (c :: s) <> [].
Proof.
  intros Hl E. apply dropwhile_all in E. unfold no_trailing_space in Hl.
  destruct (last_char (c :: s)) as [d|] eqn:El.
  - rewrite Forall_forall in E. rewrite E in Hl; [discriminate|].
    unfold last_char in El. apply in_rev.
    destruct (rev (c :: s)); [discriminate|]. injection El as ->. now left.
  - unfold last_char in El. destruct (rev (c :: s)) eqn:Er; [|discriminate].
    apply (f_equal (@length ascii)) in Er. rewrite length_rev in Er. discriminate.
Qed.

Lemma no_trailing_space_tail c s :
  no_trailing_space (c :: s) -> no_trailing_space s.
Proof.
  unfold no_trailing_space. destruct s as [|d s]; [now intros _|].
  change (c :: d :: s) with ([c] ++ d :: s).
  now rewrite last_char_app_nonempty by discriminate.
Qed.

Lemma rstrip_fixed_no_trailing_space s : rstrip s = s -> no_trailing_space s.
Proof.
  intros E. destruct (rstrip_spec s) as (_ & _ & _ & H).
  unfold no_trailing_space. now rewrite E in H.
Qed.

(** A stretch without any T and without whitespace at its end holds no
    match, and none that starts in it. *)
Lemma remove_tool_param_prefix pre m :
  Forall (fun c => is_T c = false) pre -> no_trailing_space pre ->
  remove_tool_param (pre ++ m) = pre ++ remove_tool_param m.
Proof.
  intros HT. induction HT as [|c pre Hc HT IH]; intros Hl; [reflexivity|].
  cbn [app]. rewrite remove_tool_param_keep.
  - now rewrite IH by exact (no_trailing_space_tail _ _ Hl).
  - unfold tool_param_at. change (c :: pre ++ m) with ((c :: pre) ++ m).
    pose proof (no_trailing_space_dropwhile _ _ Hl) as Hd.
    rewrite (dropwhile_app _ _ _ Hd).
    destruct (dropwhile isspace (c :: pre)) as [|t r] eqn:E; [contradiction|].
    cbn [app]. apply dropwhile_head_in in E.
    assert (is_T t = false) as ->; [|reflexivity].
    assert (HT' : Forall (fun c => is_T c = false) (c :: pre)) by now constructor.
    rewrite Forall_forall in HT'. now apply HT'.
Qed.

Lemma remove_tool_param_spaces ws :
  Forall (fun c => isspace c = true) ws -> remove_tool_param ws = ws.
Proof.
  induction 1 as [|c ws Hc Hws IH]; [reflexivity|].
  rewrite remove_tool_param_keep; [now rewrite IH|].
  unfold tool_param_at.
  assert (Hall : Forall (fun c => isspace c = true) (c :: ws)) by now constructor.
  destruct (takewhile_app_stop isspace (c :: ws) [] Hall I) as [_ E].
  rewrite app_nil_r in E. now rewrite E.
Qed.

Lemma space_not_digit c : isspace c = true -> isdigit c = false.
Proof. all_chars c. Qed.

Lemma all_digits_Forall t :
  all_digits t = true -> Forall (fun c => isdigit c = true) t.
Proof. unfold all_digits. intros H. now apply Forall_forall, forallb_forall. Qed.

(** The parameter the transform appends is one match of the pattern. *)
Lemma tool_param_at_appended tool ws :
  tool <> [] -> all_digits tool = true ->
  Forall (fun c => isspace c = true) ws ->
  tool_param_at (txt " T" ++ tool ++ ws) = Some (2 + length tool).
Proof.
  intros Hne Hd Hws. unfold tool_param_at, txt.
  cbn [list_ascii_of_string app takewhile dropwhile].
  change (isspace " ") with true. change (isspace "T") with false.
  cbv iota. change (is_T "T") with true. cbv iota.
  assert (Hstop : match ws with [] => True | c :: _ => isdigit c = false end).
  { destruct Hws as [|c ws Hc _]; [exact I|now apply space_not_digit]. }
  destruct (takewhile_app_stop isdigit tool ws (all_digits_Forall _ Hd) Hstop)
    as [-> ->].
  destruct tool as [|d tool]; [contradiction|].
  destruct (last_char_digits (d :: tool) Hne Hd) as (e & -> & He).
  unfold at_boundary. cbn [opt_word]. rewrite (digit_is_word _ He).
  assert (opt_word (hd_error ws) = false) as ->.
  { destruct Hws as [|c ws Hc _]; [reflexivity|]. now apply space_not_word. }
  reflexivity.
Qed.

Lemma remove_tool_param_tagged pre tool ws :
  Forall (fun c => is_T c = false) pre -> no_trailing_space pre ->
  tool <> [] -> all_digits tool = true ->
  Forall (fun c => isspace c = true) ws ->
  remove_tool_param (pre ++ txt " T" ++ tool ++ ws) = pre ++ ws.
Proof.
  intros HT Hl Hne Hd Hws. rewrite remove_tool_param_prefix by assumption.
  f_equal.
  rewrite (remove_tool_param_match _ _ (tool_param_at_appended _ _ Hne Hd Hws)).
  unfold txt. cbn [list_ascii_of_string app skipn Nat.add].
  rewrite skipn_app, skipn_all, Nat.sub_diag. cbn [skipn app].
  now apply remove_tool_param_spaces.
Qed.

Lemma rstrip_app_spaces pre ws :
  no_trailing_space pre -> Forall (fun c => isspace c = true) ws ->
  rstrip (pre ++ ws) = pre.
Proof.
  intros Hl Hws. unfold rstrip. rewrite rev_app_distr.
  assert (Hstop : match rev pre with [] => True | c :: _ => isspace c = false end).
  { unfold no_trailing_space, last_char in Hl. now destruct (rev pre). }
  destruct (takewhile_app_stop isspace (rev ws) (rev pre) (Forall_rev Hws) Hstop)
    as [_ ->].
  apply rev_involutive.
Qed.

(** ** The scenarios of the specification, and the patterns on examples *)

Example scenario1 : process_lines [lf "M108 T2"] = [lf "M108 T2"].
Proof. vm_compute. reflexivity. Qed.

Example scenario3 :
  process_lines [lf "M108 T0"; lf "M106 S30 T9 ; cool"]
  = [lf "M108 T0"; lf "M106 S30 T0 ; cool"].
Proof. vm_compute. reflexivity. Qed.

Example scenario4 :
  process_lines [lf "M108 T0"; lf "M106"] = [lf "M108 T0"; lf "M106"]
  /\ state_after init [lf "M108 T0"; lf "M106"] = State (Some (txt "0")) None.
Proof. vm_compute. split; reflexivity. Qed.

Example crlf_kept :
  process_lines [crlf "M108 T0"; crlf "M106 S5"; lf "M108 T1"]
  = [crlf "M108 T0"; crlf "M106 S5 T0"; lf "M108 T1"; lf "M106 S5 T1"].
Proof. vm_compute. reflexivity. Qed.

(** The fraction is given back when no word boundary follows it. *)
Example speed_fraction_given_back :
  search_speed (txt "M106 S3.5a") = Some (txt "3")
  /\ search_speed (txt "M106 S3.5") = Some (txt "3.5")
  /\ search_speed (txt "M106 S-2.50 xS9") = Some (txt "-2.50")
  /\ search_speed (txt "M106 S--3 S1x") = None.
Proof. vm_compute. repeat split; reflexivity. Qed.

Example tool_select_forms :
  tool_re_match (txt "  m108   t12;x") = Some (txt "12")
  /\ tool_re_match (txt "M108 T1.5") = Some (txt "1")
  /\ tool_re_match (txt "M108 T1a") = None
  /\ tool_re_match (txt "M108T1") = None.
Proof. vm_compute. repeat split; reflexivity. Qed.

Example tool_parameters_removed :
  remove_tool_param (txt "M106 T3 S30   t9 P1") = txt "M106 S30 P1"
  /\ remove_tool_param (txt "M106 S30 T9x") = txt "M106 S30 T9x".
Proof. vm_compute. split; reflexivity. Qed.

(** * The claims of the specification *)

(** C1, as stated: process_lines is idempotent.  It is not: on the output of
    the second scenario the second run synthesizes [M106 S75 T2] again after
    [M108 T2]. *)
Lemma second_run_inserts_again :
  ~ (forall lines, process_lines (process_lines lines) = process_lines lines).
Proof.
  intros H.
  specialize (H [lf "M106 S50"; lf "M108 T1"; lf "M106 S75"; lf "M108 T2"]).
  vm_compute in H. discriminate H.
Qed.

(** C1, amended.  A fan-speed line with a speed parameter that already
    carries the current tool is rewritten to itself.  The line ends in LF
    (alone or after CR); its code is [pre], [ T] and the digits of the
    current tool, where [pre] has no T, no semicolon and no whitespace at
    its end; after the code comes nothing or [ ;] and a comment.  Processed
    while that tool is current, the line is the one line emitted, and
    [last_fan_speed] becomes its speed parameter. *)
Theorem tagged_line_rewritten_to_itself before line tool speed pre tail :
  current_tool (state_after init before) = Some tool ->
  is_fan_speed_line line = true ->
  speed_parameter line = Some speed ->
  endswith line [LF] = true ->
  content line = pre ++ txt " T" ++ tool ++ tail ->
  Forall (fun c => is_T c = false /\ is_code 59 c = false) pre ->
  rstrip pre = pre ->
  tail = [] \/ (exists comment, tail = txt " ;" ++ comment) ->
  process_line (state_after init before) line
  = (State (Some tool) (Some speed), [line]).
Proof.
  intros Ht Hf Hs Hlf Hc Hpre Hr Htail.
  destruct (run_tool_well_formed before _ Ht) as [Hne Hd].
  pose proof (rstrip_fixed_no_trailing_space _ Hr) as Hl.
  assert (HT : Forall (fun c => is_T c = false) pre).
  { eapply Forall_impl; [|exact Hpre]. now intros c [? _]. }
  assert (Hsemi : Forall (fun c => is_code 59 c = false) (pre ++ txt " T" ++ tool)).
  { apply Forall_app. split.
    - eapply Forall_impl; [|exact Hpre]. now intros c [_ ?].
    - repeat constructor. eapply Forall_impl; [|exact (all_digits_Forall _ Hd)].
      intros c. apply digit_not_semicolon. }
  rewrite (process_line_fan _ _ _ _ Ht Hf Hs). cbv zeta.
  assert (Hline : line = content line ++ snd (split_eol line)).
  { unfold content. rewrite split_eol_emit. unfold with_eol. now rewrite Hlf. }
  revert Hline. generalize (snd (split_eol line)) as eol.
  rewrite Hc. intros eol ->. do 3 f_equal.
  destruct Htail as [->|[comment ->]].
  - rewrite app_nil_r, (split_semicolon_none _ Hsemi). cbn [fst snd nonempty andb].
    rewrite <- (app_nil_r tool) at 1.
    rewrite (remove_tool_param_tagged pre tool [] HT Hl Hne Hd (Forall_nil _)).
    now rewrite !app_nil_r, Hr.
  - replace (pre ++ txt " T" ++ tool ++ txt " ;" ++ comment)
      with ((pre ++ txt " T" ++ tool ++ txt " ") ++ txt ";" ++ comment)
      by now rewrite <- !app_assoc.
    rewrite split_semicolon_app.
    + cbn [fst snd].
      rewrite (remove_tool_param_tagged pre tool (txt " ") HT Hl Hne Hd)
        by now repeat constructor.
      rewrite (rstrip_app_spaces pre (txt " ") Hl) by now repeat constructor.
      rewrite (tool_suffix_no_space pre tool Hne Hd).
      cbn [nonempty txt list_ascii_of_string app andb negb].
      now rewrite <- !app_assoc.
    + rewrite !app_assoc. apply Forall_app. split.
      * now rewrite <- app_assoc.
      * now repeat constructor.
Qed.

Lemma tagged_line_rewritten_to_itself_witness :
  process_line (state_after init [lf "M108 T1"; lf "M106 S75"; lf "M108 T2"])
    (crlf "M106 S75 T2 ; keep")
  = (State (Some (txt "2")) (Some (txt "75")), [crlf "M106 S75 T2 ; keep"]).
Proof.
  apply (tagged_line_rewritten_to_itself
           [lf "M108 T1"; lf "M106 S75"; lf "M108 T2"]
           (crlf "M106 S75 T2 ; keep") (txt "2") (txt "75")
           (txt "M106 S75") (txt " ; keep")).
  - reflexivity.
  - reflexivity.
  - reflexivity.
  - reflexivity.
  - reflexivity.
  - repeat constructor.
  - reflexivity.
  - right. exists (txt " keep"). reflexivity.
Defined.

(** C2. On the four lines [M106 S50], [M108 T1], [M106 S75], [M108 T2]
    (each ended by LF) process_lines returns the five lines [M106 S50],
    [M108 T1], [M106 S75 T1], [M108 T2], [M106 S75 T2], in that order. *)
Theorem scenario2_output :
  process_lines [lf "M106 S50"; lf "M108 T1"; lf "M106 S75"; lf "M108 T2"]
  = [lf "M106 S50"; lf "M108 T1"; lf "M106 S75 T1"; lf "M108 T2";
     lf "M106 S75 T2"].
Proof. vm_compute. reflexivity. Qed.

(** C3, as stated: every pass-through line is emitted byte-identical.  It
    fails on a line that has no terminator: the line [G1 X10] comes out
    followed by LF. *)
Lemma pass_through_unterminated_gets_lf :
  ~ (forall st line,
       classify st line = PassThrough -> snd (process_line st line) = [line]).
Proof.
  intros H. specialize (H init (txt "G1 X10") eq_refl).
  vm_compute in H. discriminate H.
Qed.

(** C3, amended.  A pass-through line is emitted at its place in the output,
    between what the lines before it and the lines after it produce, and
    leaves the state as it was; it is emitted byte-identical when it ends
    in LF (alone or after CR), and followed by LF when it does not. *)
Theorem pass_through_emitted_with_eol pre line post :
  classify (state_after init pre) line = PassThrough ->
  process_lines (pre ++ line :: post)
  = process_lines pre ++ with_eol line
    :: process_from (state_after init pre) post
  /\ state_after init (pre ++ [line]) = state_after init pre
  /\ (endswith line [LF] = true -> with_eol line = line)
  /\ (endswith line [LF] = false -> with_eol line = line ++ [LF]).
Proof.
  intros H. rewrite !process_lines_from.
  rewrite process_from_app, state_after_app, process_from_cons.
  cbn [state_after]. rewrite (process_line_pass _ _ H). cbn [fst snd app].
  unfold with_eol. repeat split; intros ->; reflexivity.
Qed.

Lemma pass_through_emitted_with_eol_witness :
  process_lines ([lf "M108 T1"] ++ crlf "G1 X10" :: [txt "M106"])
  = process_lines [lf "M108 T1"] ++ with_eol (crlf "G1 X10")
    :: process_from (state_after init [lf "M108 T1"]) [txt "M106"]
  /\ state_after init ([lf "M108 T1"] ++ [crlf "G1 X10"])
     = state_after init [lf "M108 T1"]
  /\ (endswith (crlf "G1 X10") [LF] = true
      -> with_eol (crlf "G1 X10") = crlf "G1 X10")
  /\ (endswith (crlf "G1 X10") [LF] = false
      -> with_eol (crlf "G1 X10") = crlf "G1 X10" ++ [LF]).
Proof.
  apply (pass_through_emitted_with_eol [lf "M108 T1"] (crlf "G1 X10") [txt "M106"]).
  vm_compute. reflexivity.
Defined.

(** C4.  After [M108 T0] the line [M106 S30 PT5] is rewritten to
    [M106 S30 P T0]: the T5 inside the token PT5 is removed. *)
Theorem tool_parameter_removed_inside_token :
  process_lines [lf "M108 T0"; lf "M106 S30 PT5"]
  = [lf "M108 T0"; lf "M106 S30 P T0"].
Proof. vm_compute. reflexivity. Qed.

(** C5, as stated: a fan-speed line read while no tool is set is emitted
    unchanged.  It fails on a line that has no terminator: [M106 S50] comes
    out followed by LF. *)
Lemma untagged_fan_line_unterminated_gets_lf :
  ~ (forall st line,
       current_tool st = None -> is_fan_speed_line line = true ->
       process_line st line = (st, [line])).
Proof.
  intros H. specialize (H init (txt "M106 S50") eq_refl eq_refl).
  vm_compute in H. discriminate H.
Qed.

(** C5, amended.  While no tool-select line has been read, [current_tool]
    is unset and a fan-speed line, with or without a speed parameter, leaves
    the state (so [last_fan_speed]) as it was; the line is emitted
    byte-identical when it ends in LF (alone or after CR), and followed by
    LF when it does not. *)
Theorem untagged_fan_line_passes pre line :
  Forall (fun l => tool_re_match (content l) = None) pre ->
  is_fan_speed_line line = true ->
  let st := state_after init pre in
  current_tool st = None
  /\ process_line st line = (st, [with_eol line])
  /\ last_fan_speed (fst (process_line st line)) = last_fan_speed st
  /\ (endswith line [LF] = true -> with_eol line = line)
  /\ (endswith line [LF] = false -> with_eol line = line ++ [LF]).
Proof.
  intros Hpre Hfan st. subst st.
  rewrite (state_after_unset init _ eq_refl Hpre).
  assert (E : process_line init line = (init, [with_eol line])).
  { apply process_line_no_tool; [reflexivity|].
    now apply fan_speed_not_tool_select. }
  rewrite E. unfold with_eol. repeat split; intros ->; reflexivity.
Qed.

Lemma untagged_fan_line_passes_witness :
  let st := state_after init [lf "G28"; lf "M106 S10"] in
  current_tool st = None
  /\ process_line st (lf "M106 S50") = (st, [with_eol (lf "M106 S50")])
  /\ last_fan_speed (fst (process_line st (lf "M106 S50"))) = last_fan_speed st
  /\ (endswith (lf "M106 S50") [LF] = true
      -> with_eol (lf "M106 S50") = lf "M106 S50")
  /\ (endswith (lf "M106 S50") [LF] = false
      -> with_eol (lf "M106 S50") = lf "M106 S50" ++ [LF]).
Proof.
  apply (untagged_fan_line_passes [lf "G28"; lf "M106 S10"] (lf "M106 S50")).
  - repeat constructor.
  - vm_compute. reflexivity.
Defined.

(** C6.  process_lines is a total function.  Every input line contributes,
    at its place, one output line, or two when it is a tool-select line read
    while [last_fan_speed] is set: the line itself and then the synthesized
    fan-speed line.  So the output has at least as many lines as the
    input. *)
Theorem every_line_emitted pre line post :
  length (pre ++ line :: post) <= length (process_lines (pre ++ line :: post))
  /\ exists emitted,
       process_lines (pre ++ line :: post)
       = process_lines pre ++ emitted
         ++ process_from (state_after init (pre ++ [line])) post
       /\ ((exists x, emitted = [x])
           \/ exists tool speed,
                tool_re_match (content line) = Some tool
                /\ last_fan_speed (state_after init pre) = Some speed
                /\ emitted
                   = [with_eol line;
                      txt "M106 S" ++ speed ++ txt " T" ++ tool
                      ++ snd (split_eol line)]).
Proof.
  split; [rewrite process_lines_from; apply process_from_length|].
  exists (snd (process_line (state_after init pre) line)). split.
  - rewrite !process_lines_from.
    rewrite process_from_app, state_after_app, process_from_cons. reflexivity.
  - apply process_line_emits.
Qed.

(** C7.  When a fan-speed line with a speed parameter is rewritten and its
    content has a semicolon, the output line is the rewritten code portion
    (which does not end in a space), one space, the text from the first
    semicolon on, unchanged, and the terminator. *)
Theorem comment_preserved pre line tool speed code comment :
  current_tool (state_after init pre) = Some tool ->
  is_fan_speed_line line = true ->
  split_semicolon (content line) = (code, Some comment) ->
  search_speed code = Some speed ->
  let new_code := rstrip (remove_tool_param code) ++ txt " T" ++ tool in
  content line = code ++ txt ";" ++ comment
  /\ Forall (fun c => is_code 59 c = false) code
  /\ snd (process_line (state_after init pre) line)
     = [new_code ++ txt " " ++ (txt ";" ++ comment) ++ snd (split_eol line)]
  /\ endswith new_code (txt " ") = false.
Proof.
  intros Ht Hf Hsplit Hs new_code.
  destruct (run_tool_well_formed pre _ Ht) as [Hne Hd].
  pose proof (split_semicolon_spec (content line)) as [Hcode Hcontent].
  rewrite Hsplit in Hcode, Hcontent. cbn [fst snd] in Hcode, Hcontent.
  assert (Hsp : speed_parameter line = Some speed).
  { unfold speed_parameter. now rewrite Hsplit. }
  pose proof (process_line_fan _ line _ _ Ht Hf Hsp) as E. cbv zeta in E.
  rewrite Hsplit in E. cbn [fst snd] in E.
  pose proof (tool_suffix_no_space (rstrip (remove_tool_param code)) _ Hne Hd) as Hend.
  rewrite Hend in E. rewrite E. cbn [snd]. subst new_code.
  repeat split; try assumption.
  rewrite <- !app_assoc. reflexivity.
Qed.

Lemma comment_preserved_witness :
  let line := lf "M106 S30 T9 ; cool" in
  let new_code := rstrip (remove_tool_param (txt "M106 S30 T9 ")) ++ txt " T" ++ txt "0" in
  content line = txt "M106 S30 T9 " ++ txt ";" ++ txt " cool"
  /\ Forall (fun c => is_code 59 c = false) (txt "M106 S30 T9 ")
  /\ snd (process_line (state_after init [lf "M108 T0"]) line)
     = [new_code ++ txt " " ++ (txt ";" ++ txt " cool") ++ snd (split_eol line)]
  /\ endswith new_code (txt " ") = false.
Proof.
  apply (comment_preserved [lf "M108 T0"] (lf "M106 S30 T9 ; cool")
           (txt "0") (txt "30") (txt "M106 S30 T9 ") (txt " cool"));
    reflexivity.
Defined.

(** C8.  The line synthesized after a tool-select line is [M106 S], the
    saved speed, [ T], the digits of the new tool, and the terminator of the
    tool-select line as it is emitted: CR LF when the line ends in CR LF,
    LF otherwise. *)
Theorem synthesized_line_form st line tool speed :
  tool_re_match (content line) = Some tool ->
  last_fan_speed st = Some speed ->
  let eol := snd (split_eol line) in
  snd (process_line st line)
  = [content line ++ eol; txt "M106 S" ++ speed ++ txt " T" ++ tool ++ eol]
  /\ tool <> [] /\ all_digits tool = true
  /\ eol = (if endswith line [CR; LF] then [CR; LF] else [LF]).
Proof.
  intros Ht Hs eol. subst eol.
  rewrite (process_line_tool st _ _ Ht), Hs. cbn [snd].
  unfold content. rewrite split_eol_emit.
  destruct (tool_re_match_digits _ _ Ht) as [Hne Hd].
  repeat split; try assumption.
  unfold split_eol.
  destruct (endswith line [CR; LF]); [reflexivity|].
  destruct (endswith line [LF]); reflexivity.
Qed.

Lemma synthesized_line_form_witness :
  let st := State (Some (txt "1")) (Some (txt "75")) in
  let eol := snd (split_eol (crlf "M108 T2")) in
  snd (process_line st (crlf "M108 T2"))
  = [content (crlf "M108 T2") ++ eol;
     txt "M106 S" ++ txt "75" ++ txt " T" ++ txt "2" ++ eol]
  /\ txt "2" <> [] /\ all_digits (txt "2") = true
  /\ eol = (if endswith (crlf "M108 T2") [CR; LF] then [CR; LF] else [LF]).
Proof.
  apply (synthesized_line_form (State (Some (txt "1")) (Some (txt "75")))
           (crlf "M108 T2") (txt "2") (txt "75"));
    reflexivity.
Defined.

(** C9.  A line changes [current_tool] only when it is a tool-select line
    and [last_fan_speed] only when it is a fan-speed line with a speed
    parameter read while a tool is set; a pass-through line changes
    neither; and a field that is set stays set to the end of the input. *)
Theorem state_changes_only_by_class st line lines :
  let st' := fst (process_line st line) in
  (current_tool st' <> current_tool st -> classify st line = ToolSelect)
  /\ (last_fan_speed st' <> last_fan_speed st ->
      classify st line = FanSpeedRewrite /\ current_tool st <> None
      /\ speed_parameter line <> None /\ is_fan_speed_line line = true)
  /\ (classify st line = PassThrough -> st' = st)
  /\ (current_tool st <> None -> current_tool (state_after st lines) <> None)
  /\ (last_fan_speed st <> None ->
      last_fan_speed (state_after st lines) <> None).
Proof.
  intros st'. subst st'.
  pose proof (process_line_state st line) as H. cbv zeta in H.
  pose proof (state_after_keeps_set st lines) as [K1 K2].
  repeat split; try assumption; revert H;
    destruct (classify st line) eqn:C; try reflexivity;
    try discriminate; intros H; try tauto;
    try (rewrite H in *; tauto).
  - unfold classify in C. destruct (is_some (tool_re_match _)); [discriminate|].
    destruct (is_fan_speed_line line); [reflexivity|discriminate].
Qed.

(** C10, as stated: some code portion with single spaces only has two
    adjacent spaces once its tool parameter is removed, or once the new one
    is appended.  There is none: the pattern takes the whitespace in front
    of the parameter with it. *)
Lemma removal_never_doubles_spaces :
  ~ exists code tool,
      has_double_space code = false /\ all_digits tool = true
      /\ (has_double_space (remove_tool_param code) = true
          \/ has_double_space (rstrip (remove_tool_param code) ++ txt " T" ++ tool)
             = true).
Proof.
  intros (code & tool & Hcode & Hd & [H|H]).
  - now rewrite (remove_tool_param_no_double_space _ Hcode) in H.
  - now rewrite (rewritten_code_no_double_space _ _ Hcode Hd) in H.
Qed.

(** C10, amended.  Removing the tool parameter creates no double space: a
    code portion without two adjacent spaces has none after the removal,
    and none after the new tool parameter is appended.  Adjacent spaces
    that the input already has are not collapsed, as in [M106  S30 T9]. *)
Theorem removal_keeps_single_spaces code tool :
  has_double_space code = false ->
  all_digits tool = true ->
  has_double_space (remove_tool_param code) = false
  /\ has_double_space (rstrip (remove_tool_param code) ++ txt " T" ++ tool)
     = false
  /\ remove_tool_param (txt "M106  S30 T9") = txt "M106  S30".
Proof.
  intros Hcode Hd. repeat split.
  - now apply remove_tool_param_no_double_space.
  - now apply rewritten_code_no_double_space.
Qed.

Lemma removal_keeps_single_spaces_witness :
  has_double_space (remove_tool_param (txt "M106 T9 S30 T5 P1")) = false
  /\ has_double_space
       (rstrip (remove_tool_param (txt "M106 T9 S30 T5 P1")) ++ txt " T" ++ txt "0")
     = false
  /\ remove_tool_param (txt "M106  S30 T9") = txt "M106  S30".
Proof.
  apply (removal_keeps_single_spaces (txt "M106 T9 S30 T5 P1") (txt "0"));
    reflexivity.
Defined.

(** * Further properties of the code *)

(** ** Terminators *)

Lemma process_line_eol st line :
  Forall (fun l => endswith l (snd (split_eol line)) = true)
         (snd (process_line st line)).
Proof.
  unfold process_line. destruct (split_eol line) as [stripped eol].
  cbn [snd].
  destruct (tool_re_match stripped) as [tool|].
  - cbn [snd]. constructor; [apply endswith_app|].
    destruct (last_fan_speed st) as [speed|]; constructor; [|constructor].
    rewrite !app_assoc. apply endswith_app.
  - destruct (current_tool st) as [tool|];
      [|repeat constructor; apply endswith_app].
    destruct (startswith (upper (lstrip stripped)) (txt "M106"));
      [|repeat constructor; apply endswith_app].
    destruct (split_semicolon stripped) as [code rest].
    destruct (search_speed code);
      repeat constructor; apply endswith_app.
Qed.

Lemma split_eol_style line :
  snd (split_eol line) = (if endswith line [CR; LF] then [CR; LF] else [LF]).
Proof.
  unfold split_eol. destruct (endswith line [CR; LF]); [reflexivity|].
  destruct (endswith line [LF]); reflexivity.
Qed.

Lemma process_line_lf st line :
  Forall (fun l => endswith l [LF] = true) (snd (process_line st line)).
Proof.
  eapply Forall_impl; [|exact (process_line_eol st line)].
  intros l Hl. rewrite split_eol_style in Hl.
  destruct (endswith line [CR; LF]); [now apply endswith_crlf_lf|exact Hl].
Qed.

Lemma process_from_lf st lines :
  Forall (fun l => endswith l [LF] = true) (process_from st lines).
Proof.
  revert st. induction lines as [|l lines IH]; intros st; [constructor|].
  rewrite process_from_cons. apply Forall_app. split;
    [apply process_line_lf|apply IH].
Qed.

(** ** The state along a run *)

Lemma is_tool_select_false line :
  is_tool_select line = false -> tool_re_match (content line) = None.
Proof. unfold is_tool_select. now destruct (tool_re_match (content line)). Qed.

Lemma classify_not_tool st line :
  is_tool_select line = false -> classify st line <> ToolSelect.
Proof.
  unfold classify, is_tool_select. intros ->.
  now destruct (_ && _).
Qed.

Lemma classify_not_rewrite st line :
  has_speed line = false -> classify st line <> FanSpeedRewrite.
Proof.
  unfold classify, has_speed.
  destruct (is_some (tool_re_match (content line))); [discriminate|].
  destruct (is_fan_speed_line line), (is_some (speed_parameter line)),
    (is_some (current_tool st)); cbn; discriminate.
Qed.

Lemma process_line_keeps_tool st line :
  is_tool_select line = false ->
  current_tool (fst (process_line st line)) = current_tool st.
Proof.
  intros H. pose proof (process_line_state st line) as P. cbv zeta in P.
  pose proof (classify_not_tool st line H) as C. revert P C.
  destruct (classify st line); [now intros _ []| |].
  - now intros (E & _) _.
  - now intros -> _.
Qed.

Lemma process_line_keeps_speed st line :
  has_speed line = false ->
  last_fan_speed (fst (process_line st line)) = last_fan_speed st.
Proof.
  intros H. pose proof (process_line_state st line) as P. cbv zeta in P.
  pose proof (classify_not_rewrite st line H) as C. revert P C.
  destruct (classify st line); [|now intros _ []|].
  - now intros (_ & _ & E) _.
  - now intros -> _.
Qed.

Lemma state_after_keeps_tool st lines :
  forallb (fun l => negb (is_tool_select l)) lines = true ->
  current_tool (state_after st lines) = current_tool st.
Proof.
  revert st. induction lines as [|l lines IH]; intros st H; [reflexivity|].
  cbn [forallb] in H. apply andb_prop in H as [Hl H].
  cbn [state_after]. rewrite (IH _ H).
  apply process_line_keeps_tool. now destruct (is_tool_select l).
Qed.

Lemma state_after_keeps_speed st lines :
  forallb (fun l => negb (has_speed l)) lines = true ->
  last_fan_speed (state_after st lines) = last_fan_speed st.
Proof.
  revert st. induction lines as [|l lines IH]; intros st H; [reflexivity|].
  cbn [forallb] in H. apply andb_prop in H as [Hl H].
  cbn [state_after]. rewrite (IH _ H).
  apply process_line_keeps_speed. now destruct (has_speed l).
Qed.

Lemma process_line_speed_needs_tool st line :
  speed_needs_tool st -> speed_needs_tool (fst (process_line st line)).
Proof.
  unfold speed_needs_tool. intros Hinv.
  pose proof (process_line_state st line) as P. cbv zeta in P. revert P.
  destruct (classify st line).
  - intros (E & Hm & _) _. now rewrite E.
  - intros (E & Ht & _) _. now rewrite E.
  - now intros ->.
Qed.

Lemma state_after_speed_needs_tool st lines :
  speed_needs_tool st -> speed_needs_tool (state_after st lines).
Proof.
  revert st. induction lines as [|l lines IH]; intros st H; [exact H|].
  cbn [state_after]. now apply IH, process_line_speed_needs_tool.
Qed.

Lemma forallb_no_tool_select pre :
  forallb (fun l => negb (is_tool_select l)) pre = true ->
  Forall (fun l => tool_re_match (content l) = None) pre.
Proof.
  intros H. rewrite forallb_forall in H. apply Forall_forall. intros l Hl.
  apply is_tool_select_false. specialize (H l Hl). now destruct (is_tool_select l).
Qed.

(** ** Counting lines *)

Lemma process_line_length st line :
  length (snd (process_line st line))
  <= 1 + (if is_tool_select line then 1 else 0).
Proof.
  destruct (process_line_emits st line) as [[x ->]|(tool & speed & Ht & _ & ->)].
  - cbn. lia.
  - unfold is_tool_select. rewrite Ht. cbn. lia.
Qed.

Lemma process_from_length_upper st lines :
  length (process_from st lines) <= length lines + count_tool_select lines.
Proof.
  revert st. induction lines as [|l lines IH]; intros st; [cbn; lia|].
  rewrite process_from_cons, length_app.
  specialize (IH (fst (process_line st l))).
  pose proof (process_line_length st l) as H.
  unfold count_tool_select in *. cbn [filter length].
  destruct (is_tool_select l); cbn [length]; lia.
Qed.

Lemma process_from_length_unset st lines :
  current_tool st = None -> last_fan_speed st = None ->
  length (process_from st lines) <= length lines + pred (count_tool_select lines).
Proof.
  intros Ht Hs. induction lines as [|l lines IH]; [cbn; lia|].
  rewrite process_from_cons. unfold count_tool_select in *.
  cbn [filter]. destruct (is_tool_select l) eqn:El.
  - unfold is_tool_select in El.
    destruct (tool_re_match (content l)) as [tool|] eqn:Em; [|discriminate].
    rewrite (process_line_tool st _ _ Em), Hs. cbn [fst snd app length pred].
    pose proof (process_from_length_upper (State (Some tool) None) lines) as H.
    unfold count_tool_select in H. lia.
  - rewrite (process_line_no_tool st l Ht (is_tool_select_false _ El)).
    cbn [fst snd app length]. lia.
Qed.

(** ** The forms of the recognised lines *)

Lemma is_code_eq n c : is_code n c = true -> c = ascii_of_N n.
Proof.
  unfold is_code, ord. intros H. apply N.eqb_eq in H. subst n.
  symmetry. apply ascii_N_embedding.
Qed.

Lemma M_not_space c : is_M c = true -> isspace c = false.
Proof. all_chars c. Qed.

Lemma T_not_space c : is_T c = true -> isspace c = false.
Proof. all_chars c. Qed.

Lemma M_upper c : Ascii.eqb (upper_char c) "M" = is_M c.
Proof. all_chars c. Qed.

Lemma boundary_after_digits t rest :
  t <> [] -> all_digits t = true ->
  at_boundary (last_char t) rest = negb (opt_word (hd_error rest)).
Proof.
  intros Hne Hd. destruct (last_char_digits _ Hne Hd) as (d & -> & Hdig).
  unfold at_boundary. cbn [opt_word]. now rewrite (digit_is_word _ Hdig).
Qed.

Lemma Forall_all_digits t :
  Forall (fun c => isdigit c = true) t -> all_digits t = true.
Proof. intros H. apply forallb_forall. now apply Forall_forall. Qed.

Lemma not_word_not_digit rest :
  opt_word (hd_error rest) = false ->
  match rest with [] => True | c :: _ => isdigit c = false end.
Proof.
  destruct rest as [|c rest]; [trivial|]. cbn. intros H.
  destruct (isdigit c) eqn:E; [|reflexivity].
  now rewrite (digit_is_word _ E) in H.
Qed.

Lemma tool_re_scan_form s t :
  tool_re_scan s = Some t ->
  exists ws1 m ws2 tc rest,
    s = ws1 ++ m :: txt "108" ++ ws2 ++ tc :: t ++ rest
    /\ Forall (fun c => isspace c = true) ws1 /\ is_M m = true
    /\ ws2 <> [] /\ Forall (fun c => isspace c = true) ws2 /\ is_T tc = true
    /\ t <> [] /\ all_digits t = true /\ opt_word (hd_error rest) = false.
Proof.
  unfold tool_re_scan.
  pose proof (takewhile_dropwhile isspace s) as Es.
  pose proof (takewhile_all isspace s) as Hws1.
  destruct (dropwhile isspace s) as [|m [|c1 [|c0 [|c8 s1]]]]; try discriminate.
  destruct (is_M m) eqn:Hm; [|discriminate].
  destruct (is_code 49 c1) eqn:H1; [|discriminate].
  destruct (is_code 48 c0) eqn:H0; [|discriminate].
  destruct (is_code 56 c8) eqn:H8; [|discriminate]. cbn [andb].
  apply is_code_eq in H1, H0, H8. subst c1 c0 c8.
  pose proof (takewhile_dropwhile isspace s1) as Es1.
  pose proof (takewhile_all isspace s1) as Hws2.
  destruct (takewhile isspace s1) as [|w ws2] eqn:Ew; [discriminate|].
  destruct (dropwhile isspace s1) as [|tc s2]; [discriminate|].
  destruct (is_T tc) eqn:HT; [|discriminate].
  pose proof (takewhile_dropwhile isdigit s2) as Es2.
  pose proof (takewhile_all isdigit s2) as Hd.
  destruct (takewhile isdigit s2) as [|d ds] eqn:Ed; [discriminate|].
  rewrite boundary_after_digits;
    [|discriminate|now apply Forall_all_digits].
  destruct (opt_word (hd_error (dropwhile isdigit s2))) eqn:Hb; [discriminate|].
  intros [= <-].
  exists (takewhile isspace s), m, (w :: ws2), tc, (dropwhile isdigit s2).
  repeat split; try assumption; try discriminate.
  - rewrite Es2, Es1. exact (eq_sym Es).
  - now apply Forall_all_digits.
Qed.

Lemma tool_re_scan_of_form ws1 m ws2 tc t rest :
  Forall (fun c => isspace c = true) ws1 -> is_M m = true ->
  ws2 <> [] -> Forall (fun c => isspace c = true) ws2 -> is_T tc = true ->
  t <> [] -> all_digits t = true -> opt_word (hd_error rest) = false ->
  tool_re_scan (ws1 ++ m :: txt "108" ++ ws2 ++ tc :: t ++ rest) = Some t.
Proof.
  intros Hws1 Hm Hne2 Hws2 HT Hne Hd Hb. unfold tool_re_scan.
  destruct (takewhile_app_stop isspace ws1 (m :: txt "108" ++ ws2 ++ tc :: t ++ rest)
              Hws1 (M_not_space _ Hm)) as [_ ->].
  unfold txt. cbn [list_ascii_of_string app]. rewrite Hm.
  change (is_code 49 "1") with true. change (is_code 48 "0") with true.
  change (is_code 56 "8") with true. cbn [andb].
  destruct (takewhile_app_stop isspace ws2 (tc :: t ++ rest)
              Hws2 (T_not_space _ HT)) as [-> ->].
  destruct ws2 as [|w ws2]; [contradiction|]. rewrite HT.
  destruct (takewhile_app_stop isdigit t rest
              (all_digits_Forall _ Hd) (not_word_not_digit _ Hb)) as [-> ->].
  destruct t as [|d t]; [contradiction|].
  now rewrite boundary_after_digits, Hb by assumption.
Qed.

Lemma fan_speed_line_form s :
  startswith (upper (lstrip s)) (txt "M106") = true
  <-> exists ws m rest,
        s = ws ++ m :: txt "106" ++ rest
        /\ Forall (fun c => isspace c = true) ws /\ is_M m = true.
Proof.
  unfold lstrip. split.
  - pose proof (takewhile_dropwhile isspace s) as Es.
    pose proof (takewhile_all isspace s) as Hws.
    destruct (dropwhile isspace s) as [|m [|c1 [|c0 [|c6 rest]]]];
      unfold txt; cbn [upper map list_ascii_of_string startswith];
      try discriminate; try (rewrite ?andb_false_r; discriminate).
    rewrite M_upper, !upper_digit by reflexivity.
    intros H. repeat (apply andb_prop in H as [? H]).
    repeat match goal with
           | E : Ascii.eqb _ _ = true |- _ => apply Ascii.eqb_eq in E
           end.
    subst c1 c0 c6. exists (takewhile isspace s), m, rest.
    repeat split; try assumption. exact (eq_sym Es).
  - intros (ws & m & rest & -> & Hws & Hm).
    destruct (takewhile_app_stop isspace ws (m :: txt "106" ++ rest)
                Hws (M_not_space _ Hm)) as [_ ->].
    unfold txt. cbn [upper map list_ascii_of_string app startswith].
    rewrite M_upper, Hm. reflexivity.
Qed.

(** ** What the removal of tool parameters keeps *)

Lemma firstn_length_app (a b : text) : firstn (length a) (a ++ b) = a.
Proof.
  rewrite firstn_app, Nat.sub_diag, firstn_all. cbn. apply app_nil_r.
Qed.

Lemma Forall_removable p l :
  (forall c, p c = true -> removable c = true) ->
  Forall (fun c => p c = true) l -> forallb removable l = true.
Proof.
  intros Hp H. apply forallb_forall. rewrite Forall_forall in H. auto.
Qed.

Lemma space_removable c : isspace c = true -> removable c = true.
Proof. unfold removable. now intros ->. Qed.

Lemma digit_removable c : isdigit c = true -> removable c = true.
Proof. unfold removable. intros ->. apply orb_true_r. Qed.

(** A match consists of whitespace, one T and digits. *)
Lemma tool_param_at_removable s n :
  tool_param_at s = Some n ->
  n <= length s /\ forallb removable (firstn n s) = true.
Proof.
  unfold tool_param_at.
  pose proof (takewhile_dropwhile isspace s) as Es.
  pose proof (takewhile_all isspace s) as Hws.
  set (ws := takewhile isspace s) in *. clearbody ws.
  destruct (dropwhile isspace s) as [|t r]; [discriminate|].
  destruct (is_T t) eqn:HT; [|discriminate].
  pose proof (takewhile_dropwhile isdigit r) as Er.
  pose proof (takewhile_all isdigit r) as Hd.
  set (rest := dropwhile isdigit r) in *. clearbody rest.
  destruct (takewhile isdigit r) as [|d ds]; [discriminate|].
  destruct (at_boundary _ _); [|discriminate]. intros [= <-]. subst r s.
  assert (L : length ws + 1 + length (d :: ds) = length (ws ++ t :: d :: ds)).
  { rewrite length_app. cbn [length]. lia. }
  cbn [length] in L. rewrite L. clear L.
  replace (ws ++ t :: (d :: ds) ++ rest) with ((ws ++ t :: d :: ds) ++ rest)
    by now rewrite <- app_assoc.
  split.
  - rewrite (length_app (ws ++ t :: d :: ds)). lia.
  - rewrite firstn_length_app, forallb_app.
    rewrite (Forall_removable isspace _ space_removable Hws).
    cbn [forallb andb]. unfold removable at 1. rewrite HT, orb_true_r.
    exact (Forall_removable isdigit _ digit_removable Hd).
Qed.

Lemma filter_removable_nil l :
  forallb removable l = true -> filter (fun c => negb (removable c)) l = [].
Proof.
  induction l as [|c l IH]; [reflexivity|]. cbn [forallb filter].
  intros H. apply andb_prop in H as [-> H]. cbn. auto.
Qed.

Lemma remove_tool_param_filter s :
  filter (fun c => negb (removable c)) (remove_tool_param s)
  = filter (fun c => negb (removable c)) s.
Proof.
  remember (length s) as k eqn:Hk. revert s Hk.
  induction k as [k IH] using lt_wf_ind. intros s Hk.
  destruct s as [|c r]; [reflexivity|].
  destruct (tool_param_at (c :: r)) as [n|] eqn:En.
  - rewrite (remove_tool_param_match _ _ En).
    pose proof (tool_param_at_positive _ _ En) as Hn.
    destruct (tool_param_at_removable _ _ En) as [Hle Hrem].
    rewrite (IH (length (skipn n (c :: r)))); [| |reflexivity].
    + rewrite <- (firstn_skipn n (c :: r)) at 2.
      now rewrite filter_app, (filter_removable_nil _ Hrem).
    + rewrite length_skipn. subst k. cbn [length] in *. lia.
  - rewrite (remove_tool_param_keep _ _ En). cbn [filter].
    rewrite (IH (length r)); [reflexivity|subst k; cbn; lia|reflexivity].
Qed.

Lemma remove_tool_param_length s :
  length (remove_tool_param s) <= length s.
Proof.
  remember (length s) as k eqn:Hk. revert s Hk.
  induction k as [k IH] using lt_wf_ind. intros s Hk.
  destruct s as [|c r]; [cbn; lia|].
  destruct (tool_param_at (c :: r)) as [n|] eqn:En.
  - rewrite (remove_tool_param_match _ _ En).
    pose proof (tool_param_at_positive _ _ En) as Hn.
    assert (Hlt : length (skipn n (c :: r)) < k).
    { rewrite length_skipn. subst k. cbn [length]. lia. }
    specialize (IH _ Hlt (skipn n (c :: r)) eq_refl). lia.
  - rewrite (remove_tool_param_keep _ _ En). cbn [length].
    assert (Hlt : length r < k) by (subst k; cbn; lia).
    specialize (IH _ Hlt r eq_refl). subst k. cbn [length]. lia.
Qed.

(** Text without any T holds no tool parameter. *)
Lemma remove_tool_param_no_T s :
  Forall (fun c => is_T c = false) s -> remove_tool_param s = s.
Proof.
  induction 1 as [|c s Hc Hs IH]; [reflexivity|].
  rewrite remove_tool_param_keep; [now rewrite IH|].
  unfold tool_param_at.
  destruct (dropwhile isspace (c :: s)) as [|t r] eqn:E; [reflexivity|].
  apply dropwhile_head_in in E.
  assert (is_T t = false) as ->; [|reflexivity].
  assert (HT : Forall (fun c => is_T c = false) (c :: s)) by now constructor.
  rewrite Forall_forall in HT. now apply HT.
Qed.

(** ** The speed pattern and its scanner *)

Lemma digit_not_dot c : isdigit c = true -> is_code 46 c = false.
Proof. all_chars c. Qed.

Lemma digit_not_minus c : isdigit c = true -> is_code 45 c = false.
Proof. all_chars c. Qed.

Lemma minus_not_digit c : is_code 45 c = true -> isdigit c = false.
Proof. all_chars c. Qed.

Lemma dot_not_digit c : is_code 46 c = true -> isdigit c = false.
Proof. all_chars c. Qed.

(** [\d+] followed by something that cannot follow a digit directly. *)
Lemma run_plus_digits p s g
    (k : option ascii -> text -> option text -> option re_result) :
  (forall q c r g', opt_word q = true -> isdigit c = true ->
                    k q (c :: r) g' = None) ->
  run (Plus isdigit) p s g k
  = match takewhile isdigit s with
    | [] => None
    | _ :: _ => k (last_char (takewhile isdigit s)) (dropwhile isdigit s) g
    end.
Proof.
  intros Hk. cbn [run Plus]. destruct s as [|d s]; [reflexivity|].
  cbn [takewhile dropwhile]. destruct (isdigit d) eqn:Hd; [|reflexivity].
  rewrite (star_all (fun q => opt_word q = true)).
  - now rewrite prev_after_last.
  - intros c Hc. now apply digit_is_word.
  - intros q c r Hq Hc. now apply Hk.
  - now apply digit_is_word.
Qed.

(** [-?\d+(?:\.\d+)?] followed by [k]. *)
Lemma run_number p r g
    (k : option ascii -> text -> option text -> option re_result) :
  (forall q c r' g', opt_word q = true -> isdigit c = true ->
                     k q (c :: r') g' = None) ->
  run (Seq (Opt (Chr (is_code 45)))
         (Seq (Plus isdigit) (Opt (Seq (Chr (is_code 46)) (Plus isdigit)))))
      p r g k
  = let r1 := match r with
              | m :: r' => if is_code 45 m then r' else r
              | [] => []
              end in
    match takewhile isdigit r1 with
    | [] => None
    | _ :: _ =>
        match
          match dropwhile isdigit r1 with
          | dot :: r3 =>
              if is_code 46 dot then
                match takewhile isdigit r3 with
                | [] => None
                | _ :: _ =>
                    k (last_char (takewhile isdigit r3)) (dropwhile isdigit r3) g
                end
              else None
          | [] => None
          end
        with
        | Some m => Some m
        | None => k (last_char (takewhile isdigit r1)) (dropwhile isdigit r1) g
        end
    end.
Proof.
  intros Hk.
  set (k2 := fun (p' : option ascii) (s' : text) (g' : option text) =>
               run (Opt (Seq (Chr (is_code 46)) (Plus isdigit))) p' s' g' k).
  assert (Hk2 : forall q c r' g', opt_word q = true -> isdigit c = true ->
                                  k2 q (c :: r') g' = None).
  { intros q c r' g' Hq Hc. unfold k2. cbn [run].
    now rewrite (digit_not_dot _ Hc), (Hk q c r' g' Hq Hc). }
  assert (Hnum : forall p' s',
             run (Seq (Plus isdigit) (Opt (Seq (Chr (is_code 46)) (Plus isdigit))))
               p' s' g k
             = match takewhile isdigit s' with
               | [] => None
               | _ :: _ =>
                   match
                     match dropwhile isdigit s' with
                     | dot :: r3 =>
                         if is_code 46 dot then
                           match takewhile isdigit r3 with
                           | [] => None
                           | _ :: _ =>
                               k (last_char (takewhile isdigit r3))
                                 (dropwhile isdigit r3) g
                           end
                         else None
                     | [] => None
                     end
                   with
                   | Some m => Some m
                   | None =>
                       k (last_char (takewhile isdigit s')) (dropwhile isdigit s') g
                   end
               end).
  { intros p' s'.
    change (run (Seq (Plus isdigit) (Opt (Seq (Chr (is_code 46)) (Plus isdigit))))
              p' s' g k)
      with (run (Plus isdigit) p' s' g k2).
    rewrite (run_plus_digits _ _ _ _ Hk2).
    destruct (takewhile isdigit s') as [|d ds]; [reflexivity|].
    unfold k2. cbn [run].
    destruct (dropwhile isdigit s') as [|dot r3]; [reflexivity|].
    destruct (is_code 46 dot); [|reflexivity].
    now rewrite (run_plus_digits _ _ _ _ Hk). }
  change (run (Seq (Opt (Chr (is_code 45)))
                 (Seq (Plus isdigit) (Opt (Seq (Chr (is_code 46)) (Plus isdigit)))))
            p r g k)
    with (match
            match r with
            | c :: s' =>
                if is_code 45 c
                then run (Seq (Plus isdigit)
                            (Opt (Seq (Chr (is_code 46)) (Plus isdigit))))
                       (Some c) s' g k
                else None
            | [] => None
            end
          with
          | Some m => Some m
          | None =>
              run (Seq (Plus isdigit) (Opt (Seq (Chr (is_code 46)) (Plus isdigit))))
                p r g k
          end).
  cbv zeta. destruct r as [|m r'].
  - now rewrite Hnum.
  - destruct (is_code 45 m) eqn:Hm.
    + rewrite !Hnum. cbn [takewhile]. rewrite (minus_not_digit _ Hm).
      now destruct (takewhile isdigit r') as [|d ds];
        [|destruct (match dropwhile isdigit r' with [] => _ | _ :: _ => _ end);
          [|destruct (k _ _ _)]].
    + now rewrite Hnum.
Qed.

Lemma consumed_text (a b r : text) :
  r = a ++ b -> firstn (length r - length b) r = a.
Proof. intros ->. apply firstn_consumed. Qed.

(** The speed pattern at one position is the scanner. *)
Lemma speed_re_at prev s :
  option_map group1 (re_at speed_re prev s) = speed_at prev s.
Proof.
  destruct s as [|c r]; [unfold re_at, speed_re; cbn; now destruct (at_boundary _ _)|].
  set (kG := fun (p' : option ascii) (s' : text) (_ : option text) =>
               if at_boundary p' s'
               then Some (s', Some (firstn (length r - length s') r))
               else @None re_result).
  change (re_at speed_re prev (c :: r))
    with (if at_boundary prev (c :: r)
          then if is_S c
               then run (Seq (Opt (Chr (is_code 45)))
                           (Seq (Plus isdigit)
                              (Opt (Seq (Chr (is_code 46)) (Plus isdigit)))))
                      (Some c) r None kG
               else None
          else None).
  unfold speed_at.
  destruct (at_boundary prev (c :: r)); [|reflexivity].
  destruct (is_S c); [|reflexivity]. cbn [andb].
  rewrite run_number.
  2:{ intros q d r' g' Hq Hd. unfold kG, at_boundary. cbn [hd_error opt_word].
      now rewrite Hq, (digit_is_word _ Hd). }
  cbv zeta.
  assert (Hsign :
    exists sign r1,
      r = sign ++ r1
      /\ match r with
         | m :: r' => if is_code 45 m then r' else r
         | [] => []
         end = r1
      /\ match r with
         | m :: _ => if is_code 45 m then [m] else []
         | [] => []
         end = sign).
  { destruct r as [|m r']; [now exists [], []|].
    destruct (is_code 45 m); [now exists [m], r'|now exists [], (m :: r')]. }
  destruct Hsign as (sign & r1 & Er & -> & ->).
  replace (skipn (length sign) r) with r1
    by (rewrite Er, skipn_app, skipn_all, Nat.sub_diag; reflexivity).
  pose proof (takewhile_dropwhile isdigit r1) as E1.
  destruct (takewhile isdigit r1) as [|d ds] eqn:Eint; [reflexivity|].
  set (int := d :: ds) in *.
  destruct (dropwhile isdigit r1) as [|dot r3] eqn:E2.
  - unfold kG. destruct (at_boundary (last_char int) []); [|reflexivity].
    cbn [option_map group1 snd]. f_equal. apply consumed_text.
    now rewrite <- app_assoc, E1.
  - pose proof (takewhile_dropwhile isdigit r3) as E3.
    set (rest := dropwhile isdigit r3) in *. clearbody rest.
    assert (Hint : firstn (length r - length (dot :: r3)) r = sign ++ int).
    { apply consumed_text. now rewrite <- app_assoc, E1. }
    destruct (is_code 46 dot); cbn [andb].
    + destruct (takewhile isdigit r3) as [|f fs] eqn:Efrac; cbn [nonempty andb].
      * unfold kG. destruct (at_boundary (last_char int) (dot :: r3));
          [|reflexivity].
        cbn [option_map group1 snd]. now rewrite Hint.
      * unfold kG at 1.
        destruct (at_boundary (last_char (f :: fs)) rest).
        -- cbn [option_map group1 snd]. f_equal. apply consumed_text.
           rewrite Er, <- E1, <- E3, <- !app_assoc. reflexivity.
        -- unfold kG. destruct (at_boundary (last_char int) (dot :: r3));
             [|reflexivity].
           cbn [option_map group1 snd]. now rewrite Hint.
    + unfold kG. destruct (at_boundary (last_char int) (dot :: r3));
        [|reflexivity].
      cbn [option_map group1 snd]. now rewrite Hint.
Qed.

Lemma numeral_of_form sign int tail :
  (sign = [] \/ exists m, sign = [m] /\ is_code 45 m = true) ->
  int <> [] -> all_digits int = true ->
  (tail = []
   \/ exists dot frac, tail = dot :: frac /\ is_code 46 dot = true
                       /\ frac <> [] /\ all_digits frac = true) ->
  numeral (sign ++ int ++ tail) = true.
Proof.
  intros Hsign Hne Hd Htail. unfold numeral.
  assert (Hbody : match sign ++ int ++ tail with
                  | c :: r => if is_code 45 c then r else sign ++ int ++ tail
                  | [] => []
                  end = int ++ tail).
  { destruct Hsign as [->|(m & -> & Hm)].
    - cbn [app]. destruct int as [|d int]; [contradiction|]. cbn [app].
      cbn [all_digits forallb] in Hd. apply andb_prop in Hd as [Hd _].
      now rewrite (digit_not_minus _ Hd).
    - cbn [app]. now rewrite Hm. }
  rewrite Hbody.
  assert (Hstop : match tail with [] => True | c :: _ => isdigit c = false end).
  { destruct Htail as [->|(dot & frac & -> & Hdot & _)]; [exact I|].
    now apply dot_not_digit. }
  destruct (takewhile_app_stop isdigit int tail (all_digits_Forall _ Hd) Hstop)
    as [-> ->].
  destruct int as [|d int]; [contradiction|]. cbn [nonempty andb].
  destruct Htail as [->|(dot & frac & -> & Hdot & Hfne & Hfd)]; [reflexivity|].
  rewrite Hdot, Hfd. now destruct frac.
Qed.

Lemma numeral_form g :
  numeral g = true ->
  exists sign int tail,
    g = sign ++ int ++ tail
    /\ (sign = [] \/ exists m, sign = [m] /\ is_code 45 m = true)
    /\ int <> [] /\ all_digits int = true
    /\ (tail = []
        \/ exists dot frac, tail = dot :: frac /\ is_code 46 dot = true
                            /\ frac <> [] /\ all_digits frac = true).
Proof.
  unfold numeral.
  set (body := match g with
               | c :: r => if is_code 45 c then r else g
               | [] => []
               end).
  assert (Hg : exists sign, g = sign ++ body
                 /\ (sign = [] \/ exists m, sign = [m] /\ is_code 45 m = true)).
  { subst body. destruct g as [|c r]; [now exists []; auto|].
    destruct (is_code 45 c) eqn:Hc.
    - exists [c]. split; [reflexivity|]. right. now exists c.
    - exists []. auto. }
  destruct Hg as (sign & Eg & Hsign). clearbody body.
  pose proof (takewhile_dropwhile isdigit body) as Eb.
  pose proof (takewhile_all isdigit body) as Hint.
  intros H. apply andb_prop in H as [Hne Htail].
  exists sign, (takewhile isdigit body), (dropwhile isdigit body).
  repeat split.
  - now rewrite Eb.
  - exact Hsign.
  - now destruct (takewhile isdigit body).
  - now apply Forall_all_digits.
  - destruct (dropwhile isdigit body) as [|dot frac]; [now left|]. right.
    apply andb_prop in Htail as [Htail Hfd].
    apply andb_prop in Htail as [Hdot Hfne].
    exists dot, frac. repeat split; try assumption. now destruct frac.
Qed.

(** What the scanner returns is a numeral. *)
Lemma speed_at_numeral prev s g : speed_at prev s = Some g -> numeral g = true.
Proof.
  unfold speed_at. destruct s as [|c r]; [discriminate|].
  destruct (at_boundary prev (c :: r) && is_S c); [|discriminate].
  set (sign := match r with
               | m :: _ => if is_code 45 m then [m] else []
               | [] => []
               end).
  assert (Hsign : sign = [] \/ exists m, sign = [m] /\ is_code 45 m = true).
  { subst sign. destruct r as [|m r']; [now left|].
    destruct (is_code 45 m) eqn:Hm; [right; now exists m|now left]. }
  clearbody sign. set (r1 := skipn (length sign) r). clearbody r1.
  pose proof (takewhile_all isdigit r1) as Hint.
  destruct (takewhile isdigit r1) as [|d ds] eqn:Eint; [discriminate|].
  assert (Hd : all_digits (d :: ds) = true) by now apply Forall_all_digits.
  destruct (dropwhile isdigit r1) as [|dot r3].
  - destruct (at_boundary _ _); [|discriminate]. intros [= <-].
    rewrite <- (app_nil_r (d :: ds)).
    apply (numeral_of_form sign (d :: ds) []); auto. discriminate.
  - pose proof (takewhile_all isdigit r3) as Hfrac.
    destruct (is_code 46 dot && nonempty (takewhile isdigit r3)
              && at_boundary (last_char (takewhile isdigit r3))
                   (dropwhile isdigit r3)) eqn:Hf.
    + intros [= <-]. apply andb_prop in Hf as [Hf _].
      apply andb_prop in Hf as [Hdot Hfne].
      apply (numeral_of_form sign (d :: ds) (dot :: takewhile isdigit r3));
        auto; [discriminate|]. right.
      exists dot, (takewhile isdigit r3). repeat split; try assumption.
      * now destruct (takewhile isdigit r3).
      * now apply Forall_all_digits.
    + cbv beta iota.
      destruct (at_boundary (last_char (d :: ds)) (dot :: r3)); [|discriminate].
      intros [= <-].
      rewrite <- (app_nil_r (d :: ds)).
      apply (numeral_of_form sign (d :: ds) []); auto. discriminate.
Qed.

(** A numeral after S, with whitespace or nothing after it, is what the
    scanner returns. *)
Lemma speed_at_of_numeral prev c g rest :
  opt_word prev = false -> is_S c = true -> numeral g = true ->
  match rest with [] => True | w :: _ => isspace w = true end ->
  speed_at prev (c :: g ++ rest) = Some g.
Proof.
  intros Hprev HS Hg Hrest.
  destruct (numeral_form _ Hg)
    as (sign & int & tail & -> & Hsign & Hne & Hd & Htail).
  assert (HcS : isword c = true) by (revert HS; all_chars c).
  assert (Hw : opt_word (hd_error rest) = false).
  { destruct rest as [|w rest]; [reflexivity|]. now apply space_not_word. }
  assert (Hnd : match rest with [] => True | w :: _ => isdigit w = false end).
  { destruct rest as [|w rest]; [exact I|]. now apply space_not_digit. }
  unfold speed_at. unfold at_boundary at 1. cbn [hd_error opt_word].
  rewrite Hprev, HcS, HS. cbn [xorb andb].
  assert (Hsplit :
    match (sign ++ int ++ tail) ++ rest with
    | m :: _ => if is_code 45 m then [m] else []
    | [] => []
    end = sign).
  { destruct Hsign as [->|(m & -> & Hm)].
    - destruct int as [|d int]; [contradiction|]. cbn [app].
      cbn [all_digits forallb] in Hd. apply andb_prop in Hd as [Hd0 _].
      now rewrite (digit_not_minus _ Hd0).
    - cbn [app]. now rewrite Hm. }
  rewrite Hsplit.
  replace (skipn (length sign) ((sign ++ int ++ tail) ++ rest))
    with (int ++ tail ++ rest)
    by (rewrite <- !app_assoc, skipn_app, skipn_all, Nat.sub_diag; reflexivity).
  assert (Hstop : match tail ++ rest with
                  | [] => True
                  | w :: _ => isdigit w = false
                  end).
  { destruct Htail as [->|(dot & frac & -> & Hdot & _)]; [exact Hnd|].
    now apply dot_not_digit. }
  destruct (takewhile_app_stop isdigit int (tail ++ rest)
              (all_digits_Forall _ Hd) Hstop) as [-> ->].
  destruct int as [|d ds]; [contradiction|]. cbv iota.
  set (int := d :: ds) in *.
  destruct Htail as [->|(dot & frac & -> & Hdot & Hfne & Hfd)].
  - cbn [app]. rewrite app_nil_r.
    assert (match rest with
            | dot :: r3 =>
                if is_code 46 dot && nonempty (takewhile isdigit r3)
                   && at_boundary (last_char (takewhile isdigit r3))
                        (dropwhile isdigit r3)
                then Some (sign ++ int ++ dot :: takewhile isdigit r3)
                else None
            | [] => None
            end = None) as ->.
    { destruct rest as [|w rest]; [reflexivity|].
      assert (is_code 46 w = false) as -> by (revert Hrest; all_chars w).
      reflexivity. }
    now rewrite boundary_after_digits, Hw by assumption.
  - cbn [app]. rewrite Hdot.
    destruct (takewhile_app_stop isdigit frac rest
                (all_digits_Forall _ Hfd) Hnd) as [-> ->].
    rewrite boundary_after_digits, Hw by assumption.
    destruct frac; [contradiction|]. reflexivity.
Qed.

Lemma re_search_from_speed prev s :
  option_map group1 (re_search_from speed_re prev s)
  = match speed_at prev s with
    | Some g => Some g
    | None =>
        match s with
        | [] => None
        | c :: r => option_map group1 (re_search_from speed_re (Some c) r)
        end
    end.
Proof.
  rewrite <- speed_re_at.
  destruct s as [|c r]; cbn [re_search_from];
    destruct (re_at speed_re prev _); reflexivity.
Qed.

Lemma search_speed_numeral code g :
  search_speed code = Some g -> numeral g = true.
Proof.
  unfold search_speed, re_search. generalize (@None ascii) as prev.
  induction code as [|c code IH]; intros prev; rewrite re_search_from_speed.
  - destruct (speed_at prev []) eqn:E; [|discriminate].
    intros [= <-]. exact (speed_at_numeral _ _ _ E).
  - destruct (speed_at prev (c :: code)) eqn:E; [|apply IH].
    intros [= <-]. exact (speed_at_numeral _ _ _ E).
Qed.

(** ** Synthesized lines read again *)

Lemma re_at_speed_not_S prev c r :
  is_S c = false -> re_at speed_re prev (c :: r) = None.
Proof.
  intros H. unfold re_at, speed_re. cbn [run].
  destruct (at_boundary prev (c :: r)); [|reflexivity]. now rewrite H.
Qed.

Lemma re_search_from_skip prev c r :
  is_S c = false ->
  re_search_from speed_re prev (c :: r) = re_search_from speed_re (Some c) r.
Proof.
  intros H. cbn [re_search_from]. now rewrite re_at_speed_not_S.
Qed.

Lemma search_speed_synth g rest :
  numeral g = true ->
  match rest with [] => True | w :: _ => isspace w = true end ->
  search_speed (txt "M106 S" ++ g ++ rest) = Some g.
Proof.
  intros Hg Hrest. unfold search_speed, re_search, txt.
  cbn [list_ascii_of_string app].
  rewrite !re_search_from_skip by reflexivity.
  rewrite re_search_from_speed.
  now rewrite speed_at_of_numeral.
Qed.

Lemma digit_plain d : isdigit d = true -> is_T d = false /\ is_code 59 d = false.
Proof. all_chars d. Qed.

Lemma minus_plain m : is_code 45 m = true -> is_T m = false /\ is_code 59 m = false.
Proof. all_chars m. Qed.

Lemma dot_plain m : is_code 46 m = true -> is_T m = false /\ is_code 59 m = false.
Proof. all_chars m. Qed.

Lemma digits_plain t :
  all_digits t = true ->
  Forall (fun c => is_T c = false /\ is_code 59 c = false) t.
Proof.
  intros H. eapply Forall_impl; [|exact (all_digits_Forall _ H)].
  intros c. apply digit_plain.
Qed.

(** A numeral holds no T and no semicolon, and ends with a digit. *)
Lemma numeral_plain g :
  numeral g = true ->
  Forall (fun c => is_T c = false /\ is_code 59 c = false) g
  /\ exists d, last_char g = Some d /\ isdigit d = true.
Proof.
  intros H.
  destruct (numeral_form _ H)
    as (sign & int & tail & -> & Hsign & Hne & Hd & Htail).
  split.
  - repeat (apply Forall_app; split).
    + destruct Hsign as [->|(m & -> & Hm)]; [constructor|].
      constructor; [now apply minus_plain|constructor].
    + now apply digits_plain.
    + destruct Htail as [->|(dot & frac & -> & Hdot & _ & Hfd)]; [constructor|].
      constructor; [now apply dot_plain|now apply digits_plain].
  - destruct Htail as [->|(dot & frac & -> & Hdot & Hfne & Hfd)].
    + rewrite app_nil_r, last_char_app_nonempty by assumption.
      now apply last_char_digits.
    + rewrite app_assoc.
      change (dot :: frac) with ([dot] ++ frac).
      rewrite app_assoc, last_char_app_nonempty by assumption.
      now apply last_char_digits.
Qed.

Lemma digit_not_CR d : isdigit d = true -> Ascii.eqb d CR = false.
Proof. all_chars d. Qed.

(** A fan-speed line whose code is [pre], [ T] and the current tool, with
    nothing after it, is rewritten to itself. *)
Lemma process_line_tagged st line tool speed pre :
  current_tool st = Some tool -> tool <> [] -> all_digits tool = true ->
  is_fan_speed_line line = true -> speed_parameter line = Some speed ->
  endswith line [LF] = true -> content line = pre ++ txt " T" ++ tool ->
  Forall (fun c => is_T c = false /\ is_code 59 c = false) pre ->
  no_trailing_space pre ->
  process_line st line = (State (Some tool) (Some speed), [line]).
Proof.
  intros Ht Hne Hd Hf Hs Hlf Hc Hpre Hl.
  assert (HT : Forall (fun c => is_T c = false) pre).
  { eapply Forall_impl; [|exact Hpre]. now intros c [? _]. }
  assert (Hsemi : Forall (fun c => is_code 59 c = false) (pre ++ txt " T" ++ tool)).
  { apply Forall_app. split.
    - eapply Forall_impl; [|exact Hpre]. now intros c [_ ?].
    - repeat constructor. eapply Forall_impl; [|exact (all_digits_Forall _ Hd)].
      intros c. apply digit_not_semicolon. }
  rewrite (process_line_fan _ _ _ _ Ht Hf Hs). cbv zeta.
  assert (Hline : line = content line ++ snd (split_eol line)).
  { unfold content. rewrite split_eol_emit. unfold with_eol. now rewrite Hlf. }
  revert Hline. generalize (snd (split_eol line)) as eol.
  rewrite Hc. intros eol ->. do 3 f_equal.
  rewrite (split_semicolon_none _ Hsemi). cbn [fst snd nonempty andb].
  rewrite <- (app_nil_r tool) at 1.
  rewrite (remove_tool_param_tagged pre tool [] HT Hl Hne Hd (Forall_nil _)).
  rewrite !app_nil_r.
  replace (rstrip pre) with pre; [reflexivity|].
  rewrite <- (app_nil_r pre) at 2. symmetry.
  now apply rstrip_app_spaces.
Qed.

(** The synthesized line as the transform reads it. *)
Lemma synthesized_line_read speed tool eol :
  numeral speed = true -> tool <> [] -> all_digits tool = true ->
  eol = [LF] \/ eol = [CR; LF] ->
  let code := txt "M106 S" ++ speed ++ txt " T" ++ tool in
  content (code ++ eol) = code
  /\ endswith (code ++ eol) [LF] = true
  /\ is_fan_speed_line (code ++ eol) = true
  /\ speed_parameter (code ++ eol) = Some speed.
Proof.
  intros Hnum Hne Hd Heol code.
  destruct (numeral_plain _ Hnum) as [Hplain _].
  assert (Hcontent : content (code ++ eol) = code).
  { unfold content. destruct Heol as [->| ->].
    - rewrite split_eol_lf; [reflexivity|].
      destruct (last_char_digits _ Hne Hd) as (d & Hl & Hdig).
      rewrite endswith_last. subst code.
      rewrite !app_assoc, (last_char_app_nonempty _ _ Hne), Hl.
      now apply digit_not_CR.
    - now rewrite split_eol_crlf. }
  assert (Hlf : endswith (code ++ eol) [LF] = true).
  { destruct Heol as [->| ->]; [apply endswith_app|].
    apply endswith_crlf_lf, endswith_app. }
  assert (Hsemi : Forall (fun c => is_code 59 c = false) code).
  { subst code. repeat (apply Forall_app; split).
    - now repeat constructor.
    - eapply Forall_impl; [|exact Hplain]. now intros c [_ ?].
    - now repeat constructor.
    - eapply Forall_impl; [|exact (all_digits_Forall _ Hd)].
      intros c. apply digit_not_semicolon. }
  repeat split; try assumption.
  - unfold is_fan_speed_line. rewrite Hcontent.
    apply fan_speed_line_form.
    exists [], "M"%char, (txt " S" ++ speed ++ txt " T" ++ tool).
    repeat split; constructor.
  - unfold speed_parameter. rewrite Hcontent, (split_semicolon_none _ Hsemi).
    cbn [fst]. subst code. now apply search_speed_synth.
Qed.

(** ** Input without tool-select lines *)

Lemma with_eol_ends line : endswith (with_eol line) [LF] = true.
Proof.
  unfold with_eol. destruct (endswith line [LF]) eqn:E; [exact E|].
  apply endswith_app.
Qed.

Lemma with_eol_fixed line : endswith line [LF] = true -> with_eol line = line.
Proof. unfold with_eol. now intros ->. Qed.

Lemma CR_not_word : isword CR = false.
Proof. reflexivity. Qed.

(** A tool-select match does not depend on a CR at the end. *)
Lemma tool_re_match_app_CR x t :
  tool_re_match x = Some t -> tool_re_match (x ++ [CR]) = Some t.
Proof.
  rewrite !tool_re_match_scan. intros H.
  destruct (tool_re_scan_form _ _ H)
    as (ws1 & m & ws2 & tc & rest & -> & H1 & Hm & Hne2 & H2 & HT & Hne & Hd & Hb).
  replace ((ws1 ++ m :: txt "108" ++ ws2 ++ tc :: t ++ rest) ++ [CR])
    with (ws1 ++ m :: txt "108" ++ ws2 ++ tc :: t ++ (rest ++ [CR])).
  - apply tool_re_scan_of_form; try assumption.
    destruct rest; [exact CR_not_word|exact Hb].
  - unfold txt. cbn [list_ascii_of_string app].
    rewrite <- !app_assoc. cbn [app]. rewrite <- !app_assoc. cbn [app].
    now rewrite <- !app_assoc.
Qed.

Lemma content_with_eol line :
  content (with_eol line) = content line
  \/ content line = content (with_eol line) ++ [CR].
Proof.
  unfold with_eol. destruct (endswith line [LF]) eqn:E; [now left|].
  destruct (split_eol_cases line)
    as [(s & -> & _)|[(s & -> & _)|(_ & Hline)]].
  - now rewrite (endswith_crlf_lf _ (endswith_app s [CR; LF])) in E.
  - now rewrite endswith_app in E.
  - unfold content at 2 3. rewrite Hline. cbn [fst].
    destruct (endswith line [CR]) eqn:Ecr.
    + right. apply endswith_true in Ecr as [x ->].
      unfold content. rewrite <- app_assoc. cbn [app].
      now rewrite split_eol_crlf.
    + left. unfold content. now rewrite split_eol_lf.
Qed.

Lemma is_tool_select_with_eol line :
  is_tool_select line = false -> is_tool_select (with_eol line) = false.
Proof.
  unfold is_tool_select. intros H.
  destruct (content_with_eol line) as [->|E]; [exact H|].
  destruct (tool_re_match (content (with_eol line))) as [t|] eqn:Em;
    [|reflexivity].
  apply tool_re_match_app_CR in Em. rewrite <- E in Em. now rewrite Em in H.
Qed.

Lemma process_from_no_tool_select st lines :
  current_tool st = None ->
  forallb (fun l => negb (is_tool_select l)) lines = true ->
  process_from st lines = map with_eol lines.
Proof.
  intros Ht. induction lines as [|l lines IH]; intros H; [reflexivity|].
  cbn [forallb] in H. apply andb_prop in H as [Hl H].
  rewrite process_from_cons, process_line_no_tool;
    [|exact Ht|apply is_tool_select_false; now destruct (is_tool_select l)].
  cbn [fst snd app map]. now rewrite IH.
Qed.

Lemma no_tool_select_map_with_eol lines :
  forallb (fun l => negb (is_tool_select l)) lines = true ->
  forallb (fun l => negb (is_tool_select l)) (map with_eol lines) = true.
Proof.
  induction lines as [|l lines IH]; [reflexivity|]. cbn [forallb map].
  intros H. apply andb_prop in H as [Hl H]. rewrite (IH H), andb_true_r.
  rewrite is_tool_select_with_eol; [reflexivity|].
  now destruct (is_tool_select l).
Qed.

Lemma map_with_eol_fixed lines :
  Forall (fun l => endswith l [LF] = true) lines -> map with_eol lines = lines.
Proof.
  induction 1 as [|l lines Hl _ IH]; [reflexivity|].
  cbn [map]. now rewrite IH, with_eol_fixed.
Qed.

(** ** Splitting a text into lines *)

Lemma splitlines_from_concat cur s :
  concat (splitlines_from cur s) = cur ++ s.
Proof.
  remember (length s) as n eqn:Hn. revert cur s Hn.
  induction n as [n IH] using lt_wf_ind. intros cur s Hn.
  destruct s as [|c r].
  - cbn. destruct cur; cbn; now rewrite ?app_nil_r.
  - cbn [splitlines_from]. destruct (is_code 13 c).
    + destruct r as [|d r'].
      * cbn. now rewrite app_nil_r.
      * destruct (is_code 10 d); cbn [concat].
        -- rewrite (IH (length r')); [|subst n; cbn; lia|reflexivity].
           now rewrite <- app_assoc.
        -- rewrite (IH (length (d :: r'))); [|subst n; cbn; lia|reflexivity].
           now rewrite <- app_assoc.
    + destruct (is_linebreak c); cbn [concat].
      * rewrite (IH (length r)); [|subst n; cbn; lia|reflexivity].
        now rewrite <- app_assoc.
      * rewrite (IH (length r)); [|subst n; cbn; lia|reflexivity].
        now rewrite <- app_assoc.
Qed.

Lemma app_cons_not_nil (a : text) c l : a ++ c :: l <> [].
Proof. now destruct a. Qed.

Lemma splitlines_from_nonempty cur s :
  Forall (fun l => l <> []) (splitlines_from cur s).
Proof.
  remember (length s) as n eqn:Hn. revert cur s Hn.
  induction n as [n IH] using lt_wf_ind. intros cur s Hn.
  destruct s as [|c r].
  - cbn. destruct cur; repeat constructor. discriminate.
  - cbn [splitlines_from]. destruct (is_code 13 c).
    + destruct r as [|d r'].
      * repeat constructor. apply app_cons_not_nil.
      * destruct (is_code 10 d); constructor; try apply app_cons_not_nil.
        -- apply (IH (length r')); [subst n; cbn; lia|reflexivity].
        -- apply (IH (length (d :: r'))); [subst n; cbn; lia|reflexivity].
    + destruct (is_linebreak c).
      * constructor; [apply app_cons_not_nil|].
        apply (IH (length r)); [subst n; cbn; lia|reflexivity].
      * apply (IH (length r)); [subst n; cbn; lia|reflexivity].
Qed.

Lemma splitlines_from_nil cur s :
  splitlines_from cur s = [] -> cur = [] /\ s = [].
Proof.
  intros H. pose proof (splitlines_from_concat cur s) as E.
  rewrite H in E. cbn in E. symmetry in E. now apply app_eq_nil in E.
Qed.

Lemma linebreak_CR c : is_code 13 c = true -> is_linebreak c = true.
Proof. all_chars c. Qed.

Lemma LF_not_CR c : is_code 13 c = true -> c <> LF.
Proof. intros H ->. discriminate H. Qed.

Lemma endswith_cons_tail c (r : text) :
  r <> [] -> endswith (c :: r) [LF] = endswith r [LF].
Proof.
  intros Hr. rewrite !endswith_last.
  change (c :: r) with ([c] ++ r). now rewrite last_char_app_nonempty.
Qed.

(** When LF is the only line boundary in a text that ends in LF, every
    line ends in LF. *)
Lemma splitlines_from_lf cur s :
  Forall (fun c => is_linebreak c = true -> c = LF) s ->
  endswith s [LF] = true ->
  Forall (fun l => endswith l [LF] = true) (splitlines_from cur s).
Proof.
  intros Hs. revert cur. induction Hs as [|c r Hc Hr IH]; intros cur Hend.
  - discriminate Hend.
  - cbn [splitlines_from]. destruct (is_code 13 c) eqn:Hcr.
    + exfalso. exact (LF_not_CR _ Hcr (Hc (linebreak_CR _ Hcr))).
    + destruct (is_linebreak c) eqn:Hlb.
      * rewrite (Hc eq_refl). constructor; [apply endswith_app|].
        destruct r as [|d r']; [constructor|].
        apply IH. now rewrite endswith_cons_tail in Hend by discriminate.
      * destruct r as [|d r'].
        -- exfalso. rewrite endswith_last in Hend. cbn in Hend.
           apply Ascii.eqb_eq in Hend. now subst c.
        -- apply IH. now rewrite endswith_cons_tail in Hend by discriminate.
Qed.

Lemma concat_ends (lines : list text) l :
  lines <> [] -> Forall (fun x => endswith x l = true) lines ->
  endswith (concat lines) l = true.
Proof.
  intros Hne H. destruct (rev lines) as [|x r] eqn:E.
  - apply (f_equal (@rev text)) in E. rewrite rev_involutive in E. contradiction.
  - apply (f_equal (@rev text)) in E. rewrite rev_involutive in E. cbn in E.
    subst lines. rewrite concat_app. cbn [concat]. rewrite app_nil_r.
    apply Forall_app in H as [_ H]. inversion H as [|? ? Hx _]; subst.
    apply endswith_true in Hx as [y ->]. rewrite app_assoc. apply endswith_app.
Qed.

(** ** The saved speed is a numeral *)

Lemma process_line_speed_is_numeral st line :
  speed_is_numeral st -> speed_is_numeral (fst (process_line st line)).
Proof.
  unfold speed_is_numeral. intros Hinv.
  pose proof (process_line_state st line) as P. cbv zeta in P. revert P.
  destruct (classify st line).
  - intros (_ & _ & ->). exact Hinv.
  - intros (_ & _ & -> & _) g Hg. exact (search_speed_numeral _ _ Hg).
  - now intros ->.
Qed.

Lemma state_after_speed_is_numeral st lines :
  speed_is_numeral st -> speed_is_numeral (state_after st lines).
Proof.
  revert st. induction lines as [|l lines IH]; intros st H; [exact H|].
  cbn [state_after]. now apply IH, process_line_speed_is_numeral.
Qed.

Lemma run_speed_is_numeral lines : speed_is_numeral (state_after init lines).
Proof. apply state_after_speed_is_numeral. intros g [=]. Qed.

Lemma run_speed_needs_tool lines : speed_needs_tool (state_after init lines).
Proof. apply state_after_speed_needs_tool. now intros H; elim H. Qed.

(** * Further theorems *)

(** X1.  Every line appended for an input line, be it the line itself, a
    rewritten fan-speed line or a synthesized line, ends with the newline
    style of that input line: CR LF when the input line ends in CR LF, LF
    otherwise. *)
Theorem emitted_lines_keep_newline_style st line :
  Forall (fun l => endswith l (snd (split_eol line)) = true)
         (snd (process_line st line))
  /\ snd (split_eol line)
     = (if endswith line [CR; LF] then [CR; LF] else [LF]).
Proof. split; [apply process_line_eol|apply split_eol_style]. Qed.

(** X2.  The output for the first lines of an input does not depend on the
    lines after them: the output for [a ++ b] is the output for [a] followed
    by what the loop appends for [b] from the state reached after [a]. *)
Theorem output_of_prefix_is_prefix a b :
  process_lines (a ++ b)
  = process_lines a ++ process_from (state_after init a) b
  /\ state_after init (a ++ b) = state_after (state_after init a) b.
Proof.
  rewrite !process_lines_from. split;
    [apply process_from_app|apply state_after_app].
Qed.

(** X3.  The lines before the first tool-select line are passed through,
    fan-speed lines included, and leave no trace: the rest of the input is
    processed as if it were the whole input. *)
Theorem lines_before_first_tool_select pre rest :
  forallb (fun l => negb (is_tool_select l)) pre = true ->
  process_lines (pre ++ rest) = map with_eol pre ++ process_lines rest.
Proof.
  intros H. rewrite !process_lines_from, process_from_app.
  rewrite (state_after_unset init pre eq_refl (forallb_no_tool_select _ H)).
  now rewrite (process_from_no_tool_select init pre eq_refl H).
Qed.

Lemma lines_before_first_tool_select_witness :
  process_lines ([lf "G28"; txt "M106 S10"] ++ [lf "M108 T0"; lf "M106 S5"])
  = map with_eol [lf "G28"; txt "M106 S10"]
    ++ process_lines [lf "M108 T0"; lf "M106 S5"].
Proof.
  apply (lines_before_first_tool_select [lf "G28"; txt "M106 S10"]
           [lf "M108 T0"; lf "M106 S5"]).
  vm_compute. reflexivity.
Defined.

(** X4.  On an input without tool-select lines the transform only adds LF
    to the lines that do not end in LF, and running it again on its output
    changes nothing. *)
Theorem no_tool_select_idempotent lines :
  forallb (fun l => negb (is_tool_select l)) lines = true ->
  process_lines lines = map with_eol lines
  /\ process_lines (process_lines lines) = process_lines lines.
Proof.
  intros H.
  assert (E : process_lines lines = map with_eol lines).
  { rewrite process_lines_from. now apply process_from_no_tool_select. }
  split; [exact E|]. rewrite E, process_lines_from.
  rewrite (process_from_no_tool_select init _ eq_refl
             (no_tool_select_map_with_eol _ H)).
  apply map_with_eol_fixed, Forall_forall. intros l Hl.
  apply in_map_iff in Hl as (x & <- & _). apply with_eol_ends.
Qed.

Lemma no_tool_select_idempotent_witness :
  process_lines [lf "G28"; crlf "M106 S10"; txt "G1 X1" ++ [CR]]
  = map with_eol [lf "G28"; crlf "M106 S10"; txt "G1 X1" ++ [CR]]
  /\ process_lines (process_lines [lf "G28"; crlf "M106 S10"; txt "G1 X1" ++ [CR]])
     = process_lines [lf "G28"; crlf "M106 S10"; txt "G1 X1" ++ [CR]].
Proof.
  apply (no_tool_select_idempotent
           [lf "G28"; crlf "M106 S10"; txt "G1 X1" ++ [CR]]).
  vm_compute. reflexivity.
Defined.

(** X5.  After a run the current tool is the digits of the last tool-select
    line read. *)
Theorem current_tool_is_last_selected st pre line post tool :
  tool_re_match (content line) = Some tool ->
  forallb (fun l => negb (is_tool_select l)) post = true ->
  current_tool (state_after st (pre ++ line :: post)) = Some tool.
Proof.
  intros Hm Hpost. rewrite state_after_app. cbn [state_after].
  rewrite (state_after_keeps_tool _ _ Hpost).
  now rewrite (process_line_tool _ _ _ Hm).
Qed.

Lemma current_tool_is_last_selected_witness :
  current_tool
    (state_after init
       ([lf "M108 T0"; lf "M106 S1"] ++ lf "M108 T12" :: [lf "M106 S2"; lf "G1"]))
  = Some (txt "12").
Proof.
  apply (current_tool_is_last_selected init [lf "M108 T0"; lf "M106 S1"]
           (lf "M108 T12") [lf "M106 S2"; lf "G1"] (txt "12"));
    vm_compute; reflexivity.
Defined.

(** X6.  After a run the saved speed is the speed parameter of the last
    fan-speed line that was rewritten; fan-speed lines without a speed
    parameter and all other lines leave it as it is. *)
Theorem last_fan_speed_is_last_rewritten st pre line post speed :
  classify (state_after st pre) line = FanSpeedRewrite ->
  speed_parameter line = Some speed ->
  forallb (fun l => negb (has_speed l)) post = true ->
  last_fan_speed (state_after st (pre ++ line :: post)) = Some speed.
Proof.
  intros Hc Hs Hpost. rewrite state_after_app. cbn [state_after].
  rewrite (state_after_keeps_speed _ _ Hpost).
  pose proof (process_line_state (state_after st pre) line) as P.
  cbv zeta in P. rewrite Hc in P. destruct P as (_ & _ & -> & _). exact Hs.
Qed.

Lemma last_fan_speed_is_last_rewritten_witness :
  last_fan_speed
    (state_after init
       ([lf "M108 T0"; lf "M106 S1"] ++ lf "M106 S2.5" :: [lf "M106"; lf "M108 T1"]))
  = Some (txt "2.5").
Proof.
  apply (last_fan_speed_is_last_rewritten init [lf "M108 T0"; lf "M106 S1"]
           (lf "M106 S2.5") [lf "M106"; lf "M108 T1"] (txt "2.5"));
    vm_compute; reflexivity.
Defined.

(** X7.  The first tool-select line of an input is emitted alone: nothing
    is synthesized after it, whatever fan-speed lines come before it. *)
Theorem first_tool_select_gets_no_insertion pre line tool :
  forallb (fun l => negb (is_tool_select l)) pre = true ->
  tool_re_match (content line) = Some tool ->
  process_line (state_after init pre) line
  = (State (Some tool) None, [with_eol line]).
Proof.
  intros Hpre Hm.
  rewrite (state_after_unset init pre eq_refl (forallb_no_tool_select _ Hpre)).
  now rewrite (process_line_tool _ _ _ Hm).
Qed.

Lemma first_tool_select_gets_no_insertion_witness :
  process_line (state_after init [lf "M106 S255"; lf "G28"]) (lf "M108 T1")
  = (State (Some (txt "1")) None, [with_eol (lf "M108 T1")]).
Proof.
  apply (first_tool_select_gets_no_insertion [lf "M106 S255"; lf "G28"]
           (lf "M108 T1") (txt "1"));
    vm_compute; reflexivity.
Defined.

(** X8.  In every run a speed is saved only when a tool is selected. *)
Theorem saved_speed_needs_tool lines :
  last_fan_speed (state_after init lines) <> None ->
  current_tool (state_after init lines) <> None.
Proof. apply run_speed_needs_tool. Qed.

Lemma saved_speed_needs_tool_witness :
  current_tool (state_after init [lf "M108 T3"; lf "M106 S9"]) <> None.
Proof.
  apply (saved_speed_needs_tool [lf "M108 T3"; lf "M106 S9"]).
  vm_compute. discriminate.
Defined.

(** X9.  At most one line is inserted per tool-select line, and none for
    the first: the output has at most as many lines as the input plus the
    number of its tool-select lines less one. *)
Theorem output_length_bound lines :
  length (process_lines lines)
  <= length lines + pred (count_tool_select lines).
Proof.
  rewrite process_lines_from. now apply process_from_length_unset.
Qed.

(** X10.  The tool-select lines are exactly the texts made of optional
    whitespace, M or m, 108, whitespace, T or t, digits, and then nothing
    or a character that is not a word character; the tool is the digits. *)
Theorem tool_select_form s tool :
  tool_re_match s = Some tool
  <-> exists ws1 m ws2 tc rest,
        s = ws1 ++ m :: txt "108" ++ ws2 ++ tc :: tool ++ rest
        /\ Forall (fun c => isspace c = true) ws1 /\ is_M m = true
        /\ ws2 <> [] /\ Forall (fun c => isspace c = true) ws2
        /\ is_T tc = true
        /\ tool <> [] /\ all_digits tool = true
        /\ opt_word (hd_error rest) = false.
Proof.
  rewrite tool_re_match_scan. split.
  - apply tool_re_scan_form.
  - intros (ws1 & m & ws2 & tc & rest & -> & H1 & Hm & Hne2 & H2 & HT & Hne & Hd & Hb).
    now apply tool_re_scan_of_form.
Qed.

(** X11.  A line counts as a fan-speed line exactly when its content is
    optional whitespace, M or m, 106 and then anything: the keyword is a
    prefix test, so M1065 counts too. *)
Theorem fan_speed_form line :
  is_fan_speed_line line = true
  <-> exists ws m rest,
        content line = ws ++ m :: txt "106" ++ rest
        /\ Forall (fun c => isspace c = true) ws /\ is_M m = true.
Proof. apply fan_speed_line_form. Qed.

(** X12.  Removing tool parameters deletes only whitespace, T and digits:
    every other character of the code stays, in order, and the code does
    not grow. *)
Theorem removal_keeps_other_characters code :
  filter (fun c => negb (removable c)) (remove_tool_param code)
  = filter (fun c => negb (removable c)) code
  /\ length (remove_tool_param code) <= length code.
Proof.
  split; [apply remove_tool_param_filter|apply remove_tool_param_length].
Qed.

(** X13.  A fan-speed line with a speed parameter, without T and without
    comment, read while a tool is set, gets the tool appended: the output is
    its content without trailing whitespace, [ T], the tool and the
    terminator. *)
Theorem untagged_fan_line_gets_tool st line tool speed :
  current_tool st = Some tool ->
  is_fan_speed_line line = true ->
  speed_parameter line = Some speed ->
  Forall (fun c => is_T c = false /\ is_code 59 c = false) (content line) ->
  process_line st line
  = (State (Some tool) (Some speed),
     [rstrip (content line) ++ txt " T" ++ tool ++ snd (split_eol line)]).
Proof.
  intros Ht Hf Hs Hplain.
  rewrite (process_line_fan _ _ _ _ Ht Hf Hs). cbv zeta.
  rewrite split_semicolon_none
    by (eapply Forall_impl; [|exact Hplain]; now intros c [_ ?]).
  cbn [fst snd nonempty andb app].
  rewrite remove_tool_param_no_T
    by (eapply Forall_impl; [|exact Hplain]; now intros c [? _]).
  now rewrite app_nil_r, <- !app_assoc.
Qed.

Lemma untagged_fan_line_gets_tool_witness :
  process_line (State (Some (txt "1")) None) (crlf "  m106 S255 P2  ")
  = (State (Some (txt "1")) (Some (txt "255")),
     [rstrip (content (crlf "  m106 S255 P2  ")) ++ txt " T" ++ txt "1"
      ++ snd (split_eol (crlf "  m106 S255 P2  "))]).
Proof.
  apply (untagged_fan_line_gets_tool (State (Some (txt "1")) None)
           (crlf "  m106 S255 P2  ") (txt "1") (txt "255")).
  - reflexivity.
  - vm_compute. reflexivity.
  - vm_compute. reflexivity.
  - vm_compute. repeat constructor.
Defined.

(** X14.  The saved speed is always a numeral: an optional minus sign,
    digits, and optionally a dot and digits. *)
Theorem saved_speed_is_numeral lines speed :
  last_fan_speed (state_after init lines) = Some speed ->
  numeral speed = true.
Proof. apply run_speed_is_numeral. Qed.

Lemma saved_speed_is_numeral_witness : numeral (txt "-2.50") = true.
Proof.
  apply (saved_speed_is_numeral [lf "M108 T0"; lf "M106 P1 S-2.50 S7"]
           (txt "-2.50")).
  vm_compute. reflexivity.
Defined.

Lemma digit_is_not_space d : isdigit d = true -> isspace d = false.
Proof. all_chars d. Qed.

Lemma synthesized_line_fixed st speed tool eol :
  current_tool st = Some tool ->
  numeral speed = true -> tool <> [] -> all_digits tool = true ->
  eol = [LF] \/ eol = [CR; LF] ->
  let synth := txt "M106 S" ++ speed ++ txt " T" ++ tool ++ eol in
  is_fan_speed_line synth = true
  /\ is_tool_select synth = false
  /\ speed_parameter synth = Some speed
  /\ process_line st synth = (State (Some tool) (Some speed), [synth]).
Proof.
  intros Ht Hnum Hne Hd Heol synth.
  assert (Es : synth = (txt "M106 S" ++ speed ++ txt " T" ++ tool) ++ eol).
  { subst synth. now rewrite <- !app_assoc. }
  destruct (synthesized_line_read speed tool eol Hnum Hne Hd Heol)
    as (Hc & Hlf & Hf & Hs).
  rewrite <- Es in Hc, Hlf, Hf, Hs.
  destruct (numeral_plain _ Hnum) as [Hplain (d & Hlast & Hdig)].
  assert (Hnt : is_tool_select synth = false).
  { unfold is_tool_select.
    now rewrite (fan_speed_not_tool_select _ Hf). }
  repeat split; try assumption.
  apply (process_line_tagged st synth tool speed (txt "M106 S" ++ speed));
    try assumption.
  - apply Forall_app. split; [|exact Hplain]. now repeat constructor.
  - unfold no_trailing_space.
    assert (Hsne : speed <> []) by (intros ->; discriminate Hnum).
    rewrite (last_char_app_nonempty _ _ Hsne), Hlast.
    now apply digit_is_not_space.
Qed.

(** X15.  The line synthesized after a tool-select line is one the
    transform reads back as it wrote it: it is a fan-speed line, not a
    tool-select line, its speed parameter is the saved speed, and processed
    right after the tool-select line it is emitted unchanged and saves that
    same speed. *)
Theorem synthesized_line_read_back pre line tool speed :
  tool_re_match (content line) = Some tool ->
  last_fan_speed (state_after init pre) = Some speed ->
  let synth :=
    txt "M106 S" ++ speed ++ txt " T" ++ tool ++ snd (split_eol line) in
  is_fan_speed_line synth = true
  /\ is_tool_select synth = false
  /\ speed_parameter synth = Some speed
  /\ process_line (state_after init (pre ++ [line])) synth
     = (State (Some tool) (Some speed), [synth]).
Proof.
  intros Hm Hs.
  destruct (tool_re_match_digits _ _ Hm) as [Hne Hd].
  pose proof (run_speed_is_numeral pre _ Hs) as Hnum.
  assert (Hst : state_after init (pre ++ [line])
                = State (Some tool) (Some speed)).
  { rewrite state_after_app. cbn [state_after].
    now rewrite (process_line_tool _ _ _ Hm), Hs. }
  rewrite Hst. apply synthesized_line_fixed; try assumption; [reflexivity|].
  rewrite split_eol_style. destruct (endswith line [CR; LF]); auto.
Qed.

Lemma synthesized_line_read_back_witness :
  let synth := txt "M106 S" ++ txt "7.5" ++ txt " T" ++ txt "2"
               ++ snd (split_eol (crlf "M108 T2")) in
  is_fan_speed_line synth = true
  /\ is_tool_select synth = false
  /\ speed_parameter synth = Some (txt "7.5")
  /\ process_line
       (state_after init ([lf "M108 T1"; lf "M106 S7.5"] ++ [crlf "M108 T2"]))
       synth
     = (State (Some (txt "2")) (Some (txt "7.5")), [synth]).
Proof.
  apply (synthesized_line_read_back [lf "M108 T1"; lf "M106 S7.5"]
           (crlf "M108 T2") (txt "2") (txt "7.5"));
    vm_compute; reflexivity.
Defined.

(** X16.  Splitting a text into lines loses nothing: the lines joined give
    the text back, and no line is empty. *)
Theorem splitlines_join s :
  join (splitlines s) = s /\ Forall (fun l => l <> []) (splitlines s).
Proof.
  split; [apply (splitlines_from_concat [] s)|apply splitlines_from_nonempty].
Qed.

(** X17.  The text [main] writes for a text that is not empty ends in LF. *)
Theorem rewritten_text_ends_with_lf s :
  s <> [] -> endswith (rewrite_text s) [LF] = true.
Proof.
  intros Hs. unfold rewrite_text, join. apply concat_ends.
  - intros E. pose proof (process_from_length init (splitlines s)) as H.
    rewrite <- process_lines_from, E in H. cbn [length] in H.
    destruct (splitlines s) eqn:El; [|cbn in H; lia].
    now apply splitlines_from_nil in El.
  - rewrite process_lines_from. apply process_from_lf.
Qed.

Lemma rewritten_text_ends_with_lf_witness :
  endswith (rewrite_text (txt "M108 T0" ++ [CR] ++ txt "M106 S1")) [LF] = true.
Proof.
  apply (rewritten_text_ends_with_lf (txt "M108 T0" ++ [CR] ++ txt "M106 S1")).
  discriminate.
Defined.

(** X18.  A text without tool-select lines is written as the lines it was
    split into, each followed by LF if it does not end in LF.  When LF is
    its only line boundary and it ends in LF, the text is written back
    unchanged. *)
Theorem text_without_tool_select s :
  forallb (fun l => negb (is_tool_select l)) (splitlines s) = true ->
  rewrite_text s = join (map with_eol (splitlines s))
  /\ (Forall (fun c => is_linebreak c = true -> c = LF) s ->
      endswith s [LF] = true ->
      rewrite_text s = s).
Proof.
  intros H.
  assert (E : rewrite_text s = join (map with_eol (splitlines s))).
  { unfold rewrite_text. rewrite process_lines_from.
    now rewrite (process_from_no_tool_select init _ eq_refl H). }
  split; [exact E|]. intros Hlf Hend. rewrite E.
  rewrite map_with_eol_fixed by now apply splitlines_from_lf.
  apply (splitlines_from_concat [] s).
Qed.

Lemma text_without_tool_select_witness :
  rewrite_text (lf "G28" ++ lf "M106 S255" ++ lf "G1 X1")
  = lf "G28" ++ lf "M106 S255" ++ lf "G1 X1".
Proof.
  apply (text_without_tool_select (lf "G28" ++ lf "M106 S255" ++ lf "G1 X1")).
  - vm_compute. reflexivity.
  - vm_compute.
    repeat constructor; intros H; try reflexivity; discriminate H.
  - vm_compute. reflexivity.
Defined.

(** ** A rewritten line stays a fan-speed line *)

Lemma split_semicolon_prefix a b :
  Forall (fun c => is_code 59 c = false) a ->
  split_semicolon (a ++ b)
  = (a ++ fst (split_semicolon b), snd (split_semicolon b)).
Proof.
  induction 1 as [|c a Hc _ IH]; [cbn [app]; now destruct (split_semicolon b)|].
  cbn [app split_semicolon]. now rewrite Hc, IH.
Qed.

Lemma rstrip_app_keep pre x :
  no_trailing_space pre -> rstrip (pre ++ x) = pre ++ rstrip x.
Proof.
  intros Hl. unfold rstrip. rewrite rev_app_distr.
  destruct (dropwhile isspace (rev x)) as [|c r] eqn:E.
  - apply dropwhile_all in E.
    assert (Hstop : match rev pre with
                    | [] => True
                    | c :: _ => isspace c = false
                    end).
    { unfold no_trailing_space, last_char in Hl. now destruct (rev pre). }
    destruct (takewhile_app_stop isspace (rev x) (rev pre) E Hstop) as [_ ->].
    cbn [rev]. now rewrite rev_involutive, app_nil_r.
  - rewrite dropwhile_app by now rewrite E.
    rewrite E, rev_app_distr. now rewrite rev_involutive.
Qed.

Lemma content_keeps_prefix (pre z : text) eol :
  z <> [] -> eol = [LF] \/ eol = [CR; LF] ->
  exists w, content (pre ++ z ++ eol) = pre ++ w.
Proof.
  intros Hz Heol. unfold content.
  destruct Heol as [->| ->].
  - destruct (split_eol_cases (pre ++ z ++ [LF]))
      as [(s & E & ->)|[(s & E & _ & ->)|(E & _)]]; cbn [fst].
    + destruct (exists_last Hz) as (z' & c & ->).
      exists z'. change [CR; LF] with ([CR] ++ [LF]) in E.
      rewrite !app_assoc in E. apply app_inj_tail in E as [E _].
      rewrite <- !app_assoc in E. rewrite app_assoc in E.
      now apply app_inj_tail in E as [E _].
    + exists z. rewrite app_assoc in E. now apply app_inj_tail in E as [E _].
    + rewrite app_assoc, endswith_app in E. discriminate.
  - exists z. rewrite app_assoc, split_eol_crlf. cbn [fst].
    reflexivity.
Qed.

Lemma fan_prefix_plain ws m :
  Forall (fun c => isspace c = true) ws -> is_M m = true ->
  Forall (fun c => is_T c = false) (ws ++ m :: txt "106")
  /\ Forall (fun c => is_code 59 c = false) (ws ++ m :: txt "106")
  /\ no_trailing_space (ws ++ m :: txt "106").
Proof.
  intros Hws Hm. repeat split.
  - apply Forall_app. split.
    + eapply Forall_impl; [|exact Hws]. intros c. apply space_not_T.
    + constructor; [revert Hm; all_chars m|now repeat constructor].
  - apply Forall_app. split.
    + eapply Forall_impl; [|exact Hws]. intros c Hc. revert Hc. all_chars c.
    + constructor; [revert Hm; all_chars m|now repeat constructor].
  - unfold no_trailing_space.
    now rewrite last_char_app_nonempty by discriminate.
Qed.

Lemma rewritten_line_is_fan_line st line :
  classify st line = FanSpeedRewrite ->
  Forall (fun l => is_fan_speed_line l = true /\ is_tool_select l = false)
         (snd (process_line st line)).
Proof.
  intros Hc.
  assert (Hf : is_fan_speed_line line = true).
  { unfold classify in Hc.
    destruct (is_some (tool_re_match (content line))); [discriminate|].
    now destruct (is_fan_speed_line line). }
  destruct (process_line_rewrite _ _ Hc)
    as (tool & speed & new_line & Ht & Hs & _).
  rewrite (process_line_fan _ _ _ _ Ht Hf Hs). cbv zeta. cbn [snd].
  destruct (proj1 (fan_speed_line_form _) Hf) as (ws & m & rest & E & Hws & Hm).
  destruct (fan_prefix_plain ws m Hws Hm) as (HT & Hsemi & Hl).
  set (pre := ws ++ m :: txt "106") in *.
  assert (Ec : content line = pre ++ rest).
  { rewrite E. subst pre. now rewrite <- app_assoc. }
  rewrite Ec, (split_semicolon_prefix _ _ Hsemi). cbn [fst snd].
  rewrite (remove_tool_param_prefix _ _ HT Hl), (rstrip_app_keep _ _ Hl).
  set (comment_suffix := match snd (split_semicolon rest) with
                         | Some r => txt ";" ++ r
                         | None => []
                         end).
  set (code' := rstrip (remove_tool_param (fst (split_semicolon rest)))).
  clearbody comment_suffix code'.
  assert (Heol : snd (split_eol line) = [LF] \/ snd (split_eol line) = [CR; LF]).
  { rewrite split_eol_style. destruct (endswith line [CR; LF]); auto. }
  assert (Hall : forall sep,
            is_fan_speed_line
              ((((pre ++ code') ++ txt " T" ++ tool) ++ sep ++ comment_suffix)
               ++ snd (split_eol line)) = true).
  { intros sep.
    destruct (content_keeps_prefix pre
                (code' ++ txt " T" ++ tool ++ sep ++ comment_suffix)
                (snd (split_eol line)) (app_cons_not_nil _ _ _) Heol) as (w & Ew).
    replace ((((pre ++ code') ++ txt " T" ++ tool) ++ sep ++ comment_suffix)
             ++ snd (split_eol line))
      with (pre ++ (code' ++ txt " T" ++ tool ++ sep ++ comment_suffix)
            ++ snd (split_eol line))
      by now rewrite <- !app_assoc.
    apply fan_speed_line_form. exists ws, m, w. repeat split; try assumption.
    rewrite Ew. subst pre. now rewrite <- app_assoc. }
  constructor; [|constructor]. split; [apply Hall|].
  unfold is_tool_select.
  match goal with
  | |- context [tool_re_match (content ?l)] =>
      assert (Hfan : is_fan_speed_line l = true) by apply Hall
  end.
  unfold is_fan_speed_line in Hfan.
  now rewrite (fan_speed_not_tool_select _ Hfan).
Qed.

(** X19.  A rewritten fan-speed line is still a fan-speed line and is not
    a tool-select line: the keyword and the whitespace before it are never
    touched by the rewriting. *)
Theorem rewritten_line_stays_fan_line st line :
  classify st line = FanSpeedRewrite ->
  Forall (fun l => is_fan_speed_line l = true /\ is_tool_select l = false)
         (snd (process_line st line)).
Proof. apply rewritten_line_is_fan_line. Qed.

Lemma rewritten_line_stays_fan_line_witness :
  Forall (fun l => is_fan_speed_line l = true /\ is_tool_select l = false)
         (snd (process_line (State (Some (txt "0")) None)
                 (lf "  m106 T3 S30 ;x" ++ [CR]))).
Proof.
  apply (rewritten_line_stays_fan_line (State (Some (txt "0")) None)
           (lf "  m106 T3 S30 ;x" ++ [CR])).
  vm_compute. reflexivity.
Defined.

(** X20.  No line is both a fan-speed line and a tool-select line, so the
    order of the two tests of the loop does not matter. *)
Theorem fan_speed_and_tool_select_disjoint line :
  is_fan_speed_line line = true -> is_tool_select line = false.
Proof.
  unfold is_fan_speed_line, is_tool_select. intros H.
  now rewrite (fan_speed_not_tool_select _ H).
Qed.

Lemma fan_speed_and_tool_select_disjoint_witness :
  is_tool_select (lf " m1068 T1") = false.
Proof.
  apply (fan_speed_and_tool_select_disjoint (lf " m1068 T1")).
  vm_compute. reflexivity.
Defined.
